(** * Church service calendar scraper: the extraction core and its JSON output

    A shallow embedding of [fetch_calendar.py], [scrape_calendar.py] and
    [print_calendar.py].  The scripts are thin callers of three libraries
    (BeautifulSoup, [re], [json]); the part of each library that the scripts
    use is modelled first, the scripts themselves after that, the theorems
    last.

    Conventions.
    - A Python [str] is a list of Unicode code points ([pystr]).
    - The tree handed to the extraction is the one built by
      [BeautifulSoup(response.text, 'html.parser')]; building it from the
      page text is the library's business and is not modelled.
    - Python's [None] is [None], a present value [Some]. *)

From Stdlib Require Import Ascii String.
From Stdlib Require Import List NArith Bool Lia Arith.
Import ListNotations.

(* ===================================================================== *)
(** * Python strings                                                      *)
(* ===================================================================== *)

Module PyStr.

Local Open Scope N_scope.

(** A code point. *)
Definition char := N.

(** [str]: a sequence of code points. *)
Definition pystr := list char.

Definition pystr_eq_dec : forall a b : pystr, {a = b} + {a <> b} :=
  list_eq_dec N.eq_dec.

Definition pystr_eqb (a b : pystr) : bool :=
  if pystr_eq_dec a b then true else false.

(** Literals are written as Rocq strings, whose bytes are read as UTF-8. *)
Fixpoint utf8_decode (bs : list N) : pystr :=
  match bs with
  | [] => []
  | b0 :: t0 =>
    if b0 <? 128 then b0 :: utf8_decode t0
    else match t0 with
    | [] => [b0]
    | b1 :: t1 =>
      if b0 <? 224 then ((b0 - 192) * 64 + (b1 - 128)) :: utf8_decode t1
      else match t1 with
      | [] => [b0; b1]
      | b2 :: t2 =>
        if b0 <? 240
        then ((b0 - 224) * 4096 + (b1 - 128) * 64 + (b2 - 128)) :: utf8_decode t2
        else match t2 with
        | [] => [b0; b1; b2]
        | b3 :: t3 =>
          ((b0 - 240) * 262144 + (b1 - 128) * 4096 + (b2 - 128) * 64 + (b3 - 128))
            :: utf8_decode t3
        end
      end
    end
  end.

Definition py (s : string) : pystr :=
  utf8_decode (map N_of_ascii (list_ascii_of_string s)).

(** [sep.join(parts)] *)
Fixpoint join (sep : pystr) (parts : list pystr) : pystr :=
  match parts with
  | [] => []
  | [p] => p
  | p :: rest => p ++ sep ++ join sep rest
  end.

(** [c in s] for a one-character [c]. *)
Definition contains_char (c : char) (s : pystr) : bool :=
  existsb (N.eqb c) s.

(** ** Character classes

    [str.isspace], which is also what [str.strip()] removes and what [\s]
    matches in a [str] pattern. *)
Definition is_space (c : char) : bool :=
  ((9 <=? c) && (c <=? 13)) || ((28 <=? c) && (c <=? 32))
  || (c =? 133) || (c =? 160) || (c =? 5760)
  || ((8192 <=? c) && (c <=? 8202)) || (c =? 8232) || (c =? 8233)
  || (c =? 8239) || (c =? 8287) || (c =? 12288).

(** The Unicode character database beyond Latin-1: which code points from
    256 up are decimal digits, and which are alphanumeric.  The scripts run
    against whatever database the interpreter ships, so it is a parameter. *)
Record unicode_db := {
  db_decimal : char -> bool;
  db_alnum : char -> bool
}.

(** A database in which no code point from 256 up is a digit or a letter. *)
Definition latin1_db : unicode_db :=
  {| db_decimal := fun _ => false; db_alnum := fun _ => false |}.

(** [\d] *)
Definition is_digit (U : unicode_db) (c : char) : bool :=
  if c <? 256 then (48 <=? c) && (c <=? 57) else db_decimal U c.

(** [\w]: alphanumeric or underscore. *)
Definition is_word (U : unicode_db) (c : char) : bool :=
  if c <? 256 then
    ((48 <=? c) && (c <=? 57)) || ((65 <=? c) && (c <=? 90)) || (c =? 95)
    || ((97 <=? c) && (c <=? 122)) || (c =? 170) || (c =? 178) || (c =? 179)
    || (c =? 181) || (c =? 185) || (c =? 186) || ((188 <=? c) && (c <=? 190))
    || ((192 <=? c) && (c <=? 214)) || ((216 <=? c) && (c <=? 246))
    || (248 <=? c)
  else db_alnum U c.

(** ** [str.strip()] *)
Fixpoint lstrip (s : pystr) : pystr :=
  match s with
  | [] => []
  | c :: s' => if is_space c then lstrip s' else s
  end.

Definition rstrip (s : pystr) : pystr := rev (lstrip (rev s)).

Definition strip (s : pystr) : pystr := rstrip (lstrip s).

(** Truthiness of a [str]: non-empty. *)
Definition truthy (s : pystr) : bool :=
  match s with [] => false | _ => true end.

End PyStr.
Import PyStr.

(* ===================================================================== *)
(** * The [re] module, as far as the scripts use it                       *)
(* ===================================================================== *)

Module Re.

(** One-character matchers. *)
Inductive cls :=
| CChar (c : char)      (* a literal character *)
| CDigit                (* \d *)
| CSpace                (* \s *)
| CWord                 (* \w *)
| CNotChar (c : char).  (* [^c] *)

(** Patterns: concatenation, greedy repetition of a one-character matcher,
    and capture groups, which is what the three patterns of the scripts are
    built from. *)
Inductive regex :=
| RCls (c : cls)
| REps
| RSeq (r1 r2 : regex)
| RStar (c : cls)
| RGroup (r : regex).

Definition cls_matches (U : unicode_db) (k : cls) (c : char) : bool :=
  match k with
  | CChar d => N.eqb c d
  | CDigit => is_digit U c
  | CSpace => is_space c
  | CWord => is_word U c
  | CNotChar d => negb (N.eqb c d)
  end.

(** [rseq [r1; ...; rn]] is [r1 r2 ... rn]. *)
Definition rseq (rs : list regex) : regex := fold_right RSeq REps rs.

(** A literal string. *)
Definition rlit (s : pystr) : regex := rseq (map (fun c => RCls (CChar c)) s).

(** [k{n}] *)
Definition rrep (n : nat) (k : cls) : regex := rseq (repeat (RCls k) n).

(** [k+] *)
Definition rplus (k : cls) : regex := RSeq (RCls k) (RStar k).

(** One way of matching at the start of a string: the text consumed, the
    groups closed (in order of their opening parenthesis) and what is left
    of the string. *)
Record attempt := {
  consumed : pystr;
  groups : list pystr;
  remainder : pystr
}.

(** Greedy repetition: the longest run first, then each shorter one. *)
Fixpoint star_attempts (U : unicode_db) (k : cls) (s : pystr) : list attempt :=
  match s with
  | c :: s' =>
    if cls_matches U k c
    then map (fun a => {| consumed := c :: consumed a; groups := groups a;
                          remainder := remainder a |})
             (star_attempts U k s')
         ++ [{| consumed := []; groups := []; remainder := s |}]
    else [{| consumed := []; groups := []; remainder := s |}]
  | [] => [{| consumed := []; groups := []; remainder := [] |}]
  end.

(** Every way of matching [r] at the start of [s], in the order in which the
    backtracking matcher tries them. *)
Fixpoint attempts (U : unicode_db) (r : regex) (s : pystr) : list attempt :=
  match r with
  | RCls k =>
    match s with
    | c :: s' =>
      if cls_matches U k c
      then [{| consumed := [c]; groups := []; remainder := s' |}]
      else []
    | [] => []
    end
  | REps => [{| consumed := []; groups := []; remainder := s |}]
  | RSeq r1 r2 =>
    flat_map
      (fun a1 =>
         map (fun a2 => {| consumed := consumed a1 ++ consumed a2;
                           groups := groups a1 ++ groups a2;
                           remainder := remainder a2 |})
             (attempts U r2 (remainder a1)))
      (attempts U r1 s)
  | RStar k => star_attempts U k s
  | RGroup r1 =>
    map (fun a => {| consumed := consumed a;
                     groups := consumed a :: groups a;
                     remainder := remainder a |})
        (attempts U r1 s)
  end.

(** [re.match]: the first successful attempt at the start of the string. *)
Definition re_match (U : unicode_db) (r : regex) (s : pystr) : option attempt :=
  hd_error (attempts U r s).

(** [re.search]: the first position, left to right, at which the pattern
    matches; [None] when there is none. *)
Fixpoint search (U : unicode_db) (r : regex) (s : pystr) : option attempt :=
  match re_match U r s with
  | Some a => Some a
  | None =>
    match s with
    | [] => None
    | _ :: s' => search U r s'
    end
  end.

(** [m.group(i)] for [i >= 1]; the scripts only ask for groups that took
    part in the match. *)
Definition group (i : nat) (m : attempt) : pystr :=
  nth (pred i) (groups m) [].

End Re.
Import Re.

(* ===================================================================== *)
(** * BeautifulSoup trees, as far as the scripts use them                 *)
(* ===================================================================== *)

Module Bs4.

(** An attribute value: a string, or for the multi-valued attributes
    ([class] among them) the list of its whitespace-separated tokens. *)
Inductive attr_value :=
| AttrStr (s : pystr)
| AttrList (l : list pystr).

(** The classes of string other than [NavigableString] itself and
    [Comment]: the ones written out between fixed marks ([CData],
    [ProcessingInstruction], [Declaration], [Doctype]), and the ones the
    parser makes of the text below a [script], [style], [template], [rt] or
    [rp] tag. *)
Inductive special :=
| CData
| ProcessingInstruction
| Declaration
| Doctype
| Script
| Stylesheet
| TemplateString
| RubyTextString
| RubyParenthesisString.

Definition special_eqb (a b : special) : bool :=
  match a, b with
  | CData, CData
  | ProcessingInstruction, ProcessingInstruction
  | Declaration, Declaration
  | Doctype, Doctype
  | Script, Script
  | Stylesheet, Stylesheet
  | TemplateString, TemplateString
  | RubyTextString, RubyTextString
  | RubyParenthesisString, RubyParenthesisString => true
  | _, _ => false
  end.

(** A parsed page: text (a string whose class is [NavigableString] itself),
    comments, the strings of the other classes, and tags with their
    attributes (in the order in which they are written out) and contents. *)
Unset Elimination Schemes.
Inductive node :=
| Text (s : pystr)
| Comment (s : pystr)
| Special (kind : special) (s : pystr)
| Tag (name : pystr) (attrs : list (pystr * attr_value)) (contents : list node).
Set Elimination Schemes.

(** [bool(tag)] is [True] for every tag, so [if not tag] asks whether a
    search came back with [None]. *)

Definition contents_of (n : node) : list node :=
  match n with
  | Tag _ _ cs => cs
  | _ => []
  end.

(** A node followed by everything below it, in document order. *)
Fixpoint subtree (n : node) : list node :=
  n :: match n with
       | Tag _ _ cs => flat_map subtree cs
       | _ => []
       end.

(** [tag.descendants] *)
Definition descendants (n : node) : list node :=
  flat_map subtree (contents_of n).

(** [tag.attrs.get(key)] *)
Fixpoint get_attr (key : pystr) (attrs : list (pystr * attr_value))
  : option attr_value :=
  match attrs with
  | [] => None
  | (k, v) :: rest => if pystr_eqb k key then Some v else get_attr key rest
  end.

(** Does an attribute value satisfy [class_=c]?  A token list matches when
    one token is [c] or when the tokens joined by single spaces are [c]. *)
Definition attr_matches (c : pystr) (v : option attr_value) : bool :=
  match v with
  | None => false
  | Some (AttrStr s) => pystr_eqb s c
  | Some (AttrList l) =>
    existsb (fun t => pystr_eqb t c) l || pystr_eqb (join (py " ") l) c
  end.

(** The filter of [find(name, class_=c)] and [find_all(name, class_=c)];
    [class_ = None] stands for a call without the keyword. *)
Definition matches (name : pystr) (class_ : option pystr) (n : node) : bool :=
  match n with
  | Tag nm attrs _ =>
    pystr_eqb nm name &&
    match class_ with
    | None => true
    | Some c => attr_matches c (get_attr (py "class") attrs)
    end
  | _ => false
  end.

(** [tag.find_all(name, class_=c)]: the matching descendants, in document
    order. *)
Definition find_all (name : pystr) (class_ : option pystr) (n : node)
  : list node :=
  filter (matches name class_) (descendants n).

(** [tag.find(name, class_=c)]: the first of them, or [None]. *)
Definition find (name : pystr) (class_ : option pystr) (n : node)
  : option node :=
  hd_error (find_all name class_ n).

(** [builder.string_containers]: the tags whose text the parser stores in
    a class of its own. *)
Definition string_containers (name : pystr) : option special :=
  if pystr_eqb name (py "rt") then Some RubyTextString
  else if pystr_eqb name (py "rp") then Some RubyParenthesisString
  else if pystr_eqb name (py "style") then Some Stylesheet
  else if pystr_eqb name (py "script") then Some Script
  else if pystr_eqb name (py "template") then Some TemplateString
  else None.

Definition name_of (n : node) : pystr :=
  match n with
  | Tag name _ _ => name
  | _ => []
  end.

(** [tag.interesting_string_types], as a test on a descendant: a tag that
    is a string container takes the strings of its own class only, every
    other tag the strings whose class is [NavigableString] itself or
    [CData].  The result is the string when it is taken. *)
Definition interesting (name : pystr) (d : node) : option pystr :=
  match string_containers name with
  | Some k =>
    match d with
    | Special k' s => if special_eqb k k' then Some s else None
    | _ => None
    end
  | None =>
    match d with
    | Text s => Some s
    | Special CData s => Some s
    | _ => None
    end
  end.

(** The strings [get_text(strip=True)] collects: every string of an
    interesting class below the tag, stripped, the ones that are empty
    after stripping left out. *)
Definition stripped_strings (n : node) : list pystr :=
  flat_map (fun d => match interesting (name_of n) d with
                     | Some s => let s' := strip s in
                                 if truthy s' then [s'] else []
                     | None => []
                     end)
           (descendants n).

(** [tag.get_text(strip=True)]: those strings joined by the empty string. *)
Definition get_text (n : node) : pystr := concat (stripped_strings n).

(** ** Writing a tree out again ([decode_contents], minimal formatter) *)

Local Open Scope N_scope.

Definition substitute_xml (s : pystr) : pystr :=
  flat_map (fun c => if c =? 38 then py "&amp;"
                     else if c =? 60 then py "&lt;"
                     else if c =? 62 then py "&gt;"
                     else [c]) s.

Definition quoted_attribute_value (v : pystr) : pystr :=
  if contains_char 34 v then
    if contains_char 39 v
    then [34] ++ flat_map (fun c => if c =? 34 then py "&quot;" else [c]) v ++ [34]
    else [39] ++ v ++ [39]
  else [34] ++ v ++ [34].

Definition decode_attr (kv : pystr * attr_value) : pystr :=
  let v := match snd kv with
           | AttrStr s => s
           | AttrList l => join (py " ") l
           end in
  py " " ++ fst kv ++ py "=" ++ quoted_attribute_value (substitute_xml v).

(** The tags that are written [<name/>] when they have no contents. *)
Definition empty_element_tags : list pystr :=
  map py ["area"; "base"; "br"; "col"; "embed"; "hr"; "img"; "input";
          "keygen"; "link"; "menuitem"; "meta"; "param"; "source"; "track";
          "wbr"; "basefont"; "bgsound"; "command"; "frame"; "image";
          "isindex"; "nextid"; "spacer"]%string.

Definition is_empty_element (name : pystr) (cs : list node) : bool :=
  match cs with
  | [] => existsb (pystr_eqb name) empty_element_tags
  | _ => false
  end.

(** [Formatter.cdata_containing_tags]: a string whose parent is one of
    these tags is written as it is, every other string with its entities
    substituted. *)
Definition cdata_containing (name : pystr) : bool :=
  pystr_eqb name (py "script") || pystr_eqb name (py "style").

Definition format_string (raw : bool) (s : pystr) : pystr :=
  if raw then s else substitute_xml s.

(** [PREFIX] and [SUFFIX] of the classes that are written out unchanged
    between two marks. *)
Definition preformatted (k : special) : option (pystr * pystr) :=
  match k with
  | CData => Some (py "<![CDATA[", py "]]>")
  | ProcessingInstruction => Some (py "<?", py ">")
  | Declaration => Some (py "<?", py "?>")
  | Doctype => Some (py "<!DOCTYPE ", py ">" ++ [10])
  | _ => None
  end.

(** A node written out; [raw] says whether its parent is one of the
    [cdata_containing] tags. *)
Fixpoint decode_in (raw : bool) (n : node) : pystr :=
  match n with
  | Text s => format_string raw s
  | Comment s => py "<!--" ++ s ++ py "-->"
  | Special k s =>
    match preformatted k with
    | Some (prefix, suffix) => prefix ++ s ++ suffix
    | None => format_string raw s
    end
  | Tag name attrs cs =>
    if is_empty_element name cs
    then py "<" ++ name ++ flat_map decode_attr attrs ++ py "/>"
    else py "<" ++ name ++ flat_map decode_attr attrs ++ py ">"
         ++ flat_map (decode_in (cdata_containing name)) cs
         ++ py "</" ++ name ++ py ">"
  end.

(** A node written out below a tag other than [script] and [style]. *)
Definition decode (n : node) : pystr := decode_in false n.

(** [tag.decode_contents()] *)
Definition decode_contents (n : node) : pystr :=
  flat_map (decode_in (cdata_containing (name_of n))) (contents_of n).

End Bs4.
Import Bs4.

(* ===================================================================== *)
(** * The [json] module, as far as the scripts use it                     *)
(* ===================================================================== *)

Module Json.

Local Open Scope N_scope.

(** The Python values the scripts write and read back: [None], booleans,
    strings, lists, and dicts with string keys (in insertion order).  The
    records hold no numbers, and numbers are left out of the model. *)
Unset Elimination Schemes.
Inductive value :=
| JNull
| JBool (b : bool)
| JStr (s : pystr)
| JArr (items : list value)
| JObj (members : list (pystr * value)).
Set Elimination Schemes.

(** ** [json.dump(data, f, ensure_ascii=False, indent=2)] *)

Definition hex_digit (n : N) : char := if n <? 10 then 48 + n else 87 + n.

(** The replacement of one character inside a string literal: the quote
    and the backslash get a backslash in front, the control characters
    their short escape or [\u00xx], everything else stays as it is. *)
Definition escape_char (c : char) : pystr :=
  if c =? 34 then [92; 34]
  else if c =? 92 then [92; 92]
  else if c =? 10 then [92; 110]
  else if c =? 13 then [92; 114]
  else if c =? 9 then [92; 116]
  else if c =? 8 then [92; 98]
  else if c =? 12 then [92; 102]
  else if c <? 32 then [92; 117; 48; 48; hex_digit (c / 16); hex_digit (c mod 16)]
  else [c].

Definition encode_basestring (s : pystr) : pystr :=
  [34] ++ flat_map escape_char s ++ [34].

(** A line break followed by the indentation of nesting level [level]. *)
Definition newline_indent (level : nat) : pystr :=
  10 :: repeat 32 (2 * level)%nat.

(** The text of a value that sits at nesting level [level]. *)
Fixpoint encode (level : nat) (v : value) : pystr :=
  match v with
  | JNull => py "null"
  | JBool true => py "true"
  | JBool false => py "false"
  | JStr s => encode_basestring s
  | JArr [] => py "[]"
  | JArr (x :: xs) =>
    py "[" ++ newline_indent (S level) ++ encode (S level) x
    ++ flat_map (fun y => py "," ++ newline_indent (S level) ++ encode (S level) y) xs
    ++ newline_indent level ++ py "]"
  | JObj [] => py "{}"
  | JObj (kv :: kvs) =>
    py "{" ++ newline_indent (S level)
    ++ encode_basestring (fst kv) ++ py ": " ++ encode (S level) (snd kv)
    ++ flat_map (fun m => py "," ++ newline_indent (S level)
                          ++ encode_basestring (fst m) ++ py ": "
                          ++ encode (S level) (snd m)) kvs
    ++ newline_indent level ++ py "}"
  end.

Definition dumps (v : value) : pystr := encode 0 v.

(** ** [json.load(f)] *)

Definition is_ws (c : char) : bool :=
  (c =? 32) || (c =? 9) || (c =? 10) || (c =? 13).

Fixpoint skip_ws (s : pystr) : pystr :=
  match s with
  | c :: s' => if is_ws c then skip_ws s' else s
  | [] => []
  end.

Definition hex_value (c : char) : option N :=
  if (48 <=? c) && (c <=? 57) then Some (c - 48)
  else if (97 <=? c) && (c <=? 102) then Some (c - 87)
  else if (65 <=? c) && (c <=? 70) then Some (c - 55)
  else None.

Definition hex4 (a b c d : char) : option N :=
  match hex_value a, hex_value b, hex_value c, hex_value d with
  | Some x, Some y, Some z, Some w => Some (x * 4096 + y * 256 + z * 16 + w)
  | _, _, _, _ => None
  end.

(** The character a one-letter escape stands for. *)
Definition backslash (esc : char) : option char :=
  if esc =? 34 then Some 34
  else if esc =? 92 then Some 92
  else if esc =? 47 then Some 47
  else if esc =? 98 then Some 8
  else if esc =? 102 then Some 12
  else if esc =? 110 then Some 10
  else if esc =? 114 then Some 13
  else if esc =? 116 then Some 9
  else None.

Definition is_high_surrogate (u : N) : bool := (55296 <=? u) && (u <=? 56319).
Definition is_low_surrogate (u : N) : bool := (56320 <=? u) && (u <=? 57343).

Definition prepend (c : char) (r : option (pystr * pystr)) : option (pystr * pystr) :=
  match r with
  | Some (str, rest) => Some (c :: str, rest)
  | None => None
  end.

(** The body of a string literal, from just after its opening quote; gives
    the string and the text after the closing quote.  [None] is a
    [JSONDecodeError]: no closing quote, a raw control character, or a
    malformed escape. *)
Fixpoint scanstring (s : pystr) : option (pystr * pystr) :=
  match s with
  | [] => None
  | c :: s1 =>
    if c =? 34 then Some ([], s1)
    else if c =? 92 then
      match s1 with
      | [] => None
      | esc :: s2 =>
        if esc =? 117 then
          match s2 with
          | h1 :: h2 :: h3 :: h4 :: s3 =>
            match hex4 h1 h2 h3 h4 with
            | None => None
            | Some uni =>
              match s3 with
              | b :: u :: l1 :: l2 :: l3 :: l4 :: s4 =>
                if is_high_surrogate uni && (b =? 92) && (u =? 117) then
                  match hex4 l1 l2 l3 l4 with
                  | None => None
                  | Some uni2 =>
                    if is_low_surrogate uni2
                    then prepend (65536 + (uni - 55296) * 1024 + (uni2 - 56320))
                                 (scanstring s4)
                    else prepend uni (scanstring s3)
                  end
                else prepend uni (scanstring s3)
              | _ => prepend uni (scanstring s3)
              end
            end
          | _ => None
          end
        else
          match backslash esc with
          | Some ch => prepend ch (scanstring s2)
          | None => None
          end
      end
    else if c <? 32 then None
    else prepend c (scanstring s1)
  end.

(** [d[k] = v] on a dict held in insertion order. *)
Fixpoint dict_set (d : list (pystr * value)) (k : pystr) (v : value)
  : list (pystr * value) :=
  match d with
  | [] => [(k, v)]
  | (k', v') :: d' =>
    if pystr_eqb k' k then (k', v) :: d' else (k', v') :: dict_set d' k v
  end.

(** [dict(pairs)] *)
Definition dict_of_pairs (pairs : list (pystr * value)) : list (pystr * value) :=
  fold_left (fun d kv => dict_set d (fst kv) (snd kv)) pairs [].

Fixpoint starts_with (p s : pystr) : option pystr :=
  match p, s with
  | [], _ => Some s
  | a :: p', b :: s' => if a =? b then starts_with p' s' else None
  | _ :: _, [] => None
  end.

(** The recursive-descent scanner.  [fuel] bounds the number of nested
    calls; [loads] supplies more than any input can use.

    - [scan_once] reads one value at the start of [s];
    - [scan_items] reads the items of a list from its first item on, up to
      and including the closing bracket;
    - [scan_members] reads the members of a dict from just after the
      opening quote of a key, up to and including the closing brace. *)
Fixpoint scan_once (fuel : nat) (s : pystr) : option (value * pystr) :=
  match fuel with
  | O => None
  | S f =>
    match s with
    | [] => None
    | c :: s1 =>
      if c =? 34 then
        match scanstring s1 with
        | Some (str, rest) => Some (JStr str, rest)
        | None => None
        end
      else if c =? 123 then
        match skip_ws s1 with
        | d :: s2 =>
          if d =? 125 then Some (JObj [], s2)
          else if d =? 34 then
            match scan_members f s2 with
            | Some (pairs, rest) => Some (JObj (dict_of_pairs pairs), rest)
            | None => None
            end
          else None
        | [] => None
        end
      else if c =? 91 then
        match skip_ws s1 with
        | d :: s2 =>
          if d =? 93 then Some (JArr [], s2)
          else
            match scan_items f (d :: s2) with
            | Some (values, rest) => Some (JArr values, rest)
            | None => None
            end
        | [] => None
        end
      else
        match starts_with (py "null") s with
        | Some rest => Some (JNull, rest)
        | None =>
          match starts_with (py "true") s with
          | Some rest => Some (JBool true, rest)
          | None =>
            match starts_with (py "false") s with
            | Some rest => Some (JBool false, rest)
            | None => None
            end
          end
        end
    end
  end
with scan_items (fuel : nat) (s : pystr) : option (list value * pystr) :=
  match fuel with
  | O => None
  | S f =>
    match scan_once f s with
    | None => None
    | Some (v, r) =>
      match skip_ws r with
      | d :: r1 =>
        if d =? 93 then Some ([v], r1)
        else if d =? 44 then
          match scan_items f (skip_ws r1) with
          | Some (vs, rest) => Some (v :: vs, rest)
          | None => None
          end
        else None
      | [] => None
      end
    end
  end
with scan_members (fuel : nat) (s : pystr)
  : option (list (pystr * value) * pystr) :=
  match fuel with
  | O => None
  | S f =>
    match scanstring s with
    | None => None
    | Some (key, r) =>
      match skip_ws r with
      | colon :: r1 =>
        if colon =? 58 then
          match scan_once f (skip_ws r1) with
          | None => None
          | Some (v, r2) =>
            match skip_ws r2 with
            | d :: r3 =>
              if d =? 125 then Some ([(key, v)], r3)
              else if d =? 44 then
                match skip_ws r3 with
                | q :: r4 =>
                  if q =? 34 then
                    match scan_members f r4 with
                    | Some (kvs, rest) => Some ((key, v) :: kvs, rest)
                    | None => None
                    end
                  else None
                | [] => None
                end
              else None
            | [] => None
            end
          end
        else None
      | [] => None
      end
    end
  end.

(** [json.loads]: white space, one value, white space, end of text.
    [None] is a [JSONDecodeError]. *)
Definition loads (s : pystr) : option value :=
  match scan_once (S (List.length s)) (skip_ws s) with
  | Some (v, rest) =>
    match skip_ws rest with
    | [] => Some v
    | _ => None
    end
  | None => None
  end.

End Json.
Import Json.

(* ===================================================================== *)
(** * fetch_calendar.py                                                   *)
(* ===================================================================== *)

Module FetchCalendar.

Record ChurchService := {
  date : pystr;
  day_of_week : pystr;
  service_name : pystr;
  location : option pystr;
  time : option pystr;
  occasion : option pystr;
  notes : option pystr
}.

(** r'(\d{4}-\d{2}-\d{2})\s*\|\s*(\w+)' *)
Definition date_re : regex :=
  rseq [RGroup (rseq [rrep 4 CDigit; rlit (py "-"); rrep 2 CDigit;
                      rlit (py "-"); rrep 2 CDigit]);
        RStar CSpace; rlit (py "|"); RStar CSpace;
        RGroup (rplus CWord)].

(** r'<strong>\s*LABEL\s*</strong>\s*([^<]+)' for LABEL = Plats: and Tid: *)
Definition label_re (label : pystr) : regex :=
  rseq [rlit (py "<strong>"); RStar CSpace; rlit label; RStar CSpace;
        rlit (py "</strong>"); RStar CSpace;
        RGroup (rplus (CNotChar 60%N))].

Definition loc_re : regex := label_re (py "Plats:").
Definition time_re : regex := label_re (py "Tid:").

(** The four values the loop body reads off the inner div. *)
Record details := {
  d_location : option pystr;
  d_time : option pystr;
  d_occasion : option pystr;
  d_notes : list pystr
}.

(** The body of [if details_div:]. *)
Definition scan_details (U : unicode_db) (details_div : node) : details :=
  let full_text := decode_contents details_div in
  let location :=
    match search U loc_re full_text with
    | Some loc_match => Some (strip (group 1 loc_match))
    | None => None
    end in
  let time :=
    match search U time_re full_text with
    | Some time_match => Some (strip (group 1 time_match))
    | None => None
    end in
  let occasion :=
    match find (py "strong") None details_div with
    | Some first_strong =>
      let strong_text := get_text first_strong in
      if truthy strong_text
         && negb (existsb (pystr_eqb strong_text) [py "Plats:"; py "Tid:"])
      then Some strong_text
      else None
    | None => None
    end in
  let notes :=
    fold_left (fun notes p =>
                 let p_text := get_text p in
                 if truthy p_text then notes ++ [p_text] else notes)
              (find_all (py "p") None details_div) [] in
  {| d_location := location; d_time := time; d_occasion := occasion;
     d_notes := notes |}.

(** One turn of [for item in items:].  [None] is [continue]; [Some r] is the
    record that is appended to [services]. *)
Definition scan_item (U : unicode_db) (item : node) : option ChurchService :=
  match find (py "div") (Some (py "meta")) item with
  | None => None
  | Some meta =>
    let meta_text := get_text meta in
    match search U date_re meta_text with
    | None => None
    | Some date_match =>
      let date := group 1 date_match in
      let day_of_week := group 2 date_match in
      match find (py "div") (Some (py "calendar-item-content")) item with
      | None => None
      | Some content_div =>
        let service_name :=
          match find (py "h3") None content_div with
          | Some h3 => get_text h3
          | None => py "Unknown"
          end in
        let d :=
          match find (py "div") None content_div with
          | Some details_div => scan_details U details_div
          | None => {| d_location := None; d_time := None;
                       d_occasion := None; d_notes := [] |}
          end in
        Some {| date := date;
                day_of_week := day_of_week;
                service_name := service_name;
                location := d_location d;
                time := d_time d;
                occasion := d_occasion d;
                notes := match d_notes d with
                         | [] => None
                         | ns => Some (join (py (String "010" "")) ns)
                         end |}
      end
    end
  end.

(** The loop over [items], threading the list [services]. *)
Fixpoint scan_items (U : unicode_db) (items : list node)
         (services : list ChurchService) : list ChurchService :=
  match items with
  | [] => services
  | item :: rest =>
    match scan_item U item with
    | None => scan_items U rest services
    | Some r => scan_items U rest (services ++ [r])
    end
  end.

(** [fetch_calendar], from the parsed page on. *)
Definition fetch_calendar (U : unicode_db) (soup : node) : list ChurchService :=
  let services := [] in
  match find (py "section") (Some (py "calendar")) soup with
  | None => services
  | Some calendar =>
    let items := find_all (py "div") (Some (py "calendar-item")) calendar in
    scan_items U items services
  end.

(** [asdict(service)] *)
Definition optional (o : option pystr) : value :=
  match o with
  | Some s => JStr s
  | None => JNull
  end.

Definition asdict (service : ChurchService) : value :=
  JObj [(py "date", JStr (date service));
        (py "day_of_week", JStr (day_of_week service));
        (py "service_name", JStr (service_name service));
        (py "location", optional (location service));
        (py "time", optional (time service));
        (py "occasion", optional (occasion service));
        (py "notes", optional (notes service))].

(** What [main] writes to [calendar.json] once the services are fetched:
    nothing ([None]) when there are none, otherwise the JSON text of the
    list of dicts. *)
Definition main (services : list ChurchService) : option pystr :=
  match services with
  | [] => None
  | _ =>
    let data := map asdict services in
    Some (dumps (JArr data))
  end.

End FetchCalendar.

(* ===================================================================== *)
(** * scrape_calendar.py                                                  *)
(* ===================================================================== *)

Module ScrapeCalendar.

Record ChurchService := {
  date : pystr;
  day_of_week : pystr;
  service_name : pystr;
  location : option pystr;
  time : option pystr;
  occasion : option pystr;
  notes : option pystr
}.

(** r'(\d{4}-\d{2}-\d{2})\s*\|\s*(\w+)' *)
Definition date_re : regex :=
  rseq [RGroup (rseq [rrep 4 CDigit; rlit (py "-"); rrep 2 CDigit;
                      rlit (py "-"); rrep 2 CDigit]);
        RStar CSpace; rlit (py "|"); RStar CSpace;
        RGroup (rplus CWord)].

(** r'<strong>\s*LABEL\s*</strong>\s*([^<]+)' for LABEL = Plats: and Tid: *)
Definition label_re (label : pystr) : regex :=
  rseq [rlit (py "<strong>"); RStar CSpace; rlit label; RStar CSpace;
        rlit (py "</strong>"); RStar CSpace;
        RGroup (rplus (CNotChar 60%N))].

Definition loc_re : regex := label_re (py "Plats:").
Definition time_re : regex := label_re (py "Tid:").

(** The four values the loop body reads off the inner div. *)
Record details := {
  d_location : option pystr;
  d_time : option pystr;
  d_occasion : option pystr;
  d_notes : list pystr
}.

(** The body of [if details_div:]. *)
Definition scan_details (U : unicode_db) (details_div : node) : details :=
  let full_text := decode_contents details_div in
  let location :=
    match search U loc_re full_text with
    | Some loc_match => Some (strip (group 1 loc_match))
    | None => None
    end in
  let time :=
    match search U time_re full_text with
    | Some time_match => Some (strip (group 1 time_match))
    | None => None
    end in
  let occasion :=
    match find (py "strong") None details_div with
    | Some first_strong =>
      let strong_text := get_text first_strong in
      if truthy strong_text
         && negb (existsb (pystr_eqb strong_text) [py "Plats:"; py "Tid:"])
      then Some strong_text
      else None
    | None => None
    end in
  let notes :=
    fold_left (fun notes p =>
                 let p_text := get_text p in
                 if truthy p_text then notes ++ [p_text] else notes)
              (find_all (py "p") None details_div) [] in
  {| d_location := location; d_time := time; d_occasion := occasion;
     d_notes := notes |}.

(** One turn of [for item in items:].  [None] is [continue]; [Some r] is the
    record that is appended to [services]. *)
Definition scan_item (U : unicode_db) (item : node) : option ChurchService :=
  match find (py "div") (Some (py "meta")) item with
  | None => None
  | Some meta =>
    let meta_text := get_text meta in
    match search U date_re meta_text with
    | None => None
    | Some date_match =>
      let date := group 1 date_match in
      let day_of_week := group 2 date_match in
      match find (py "div") (Some (py "calendar-item-content")) item with
      | None => None
      | Some content_div =>
        let service_name :=
          match find (py "h3") None content_div with
          | Some h3 => get_text h3
          | None => py "Unknown"
          end in
        let d :=
          match find (py "div") None content_div with
          | Some details_div => scan_details U details_div
          | None => {| d_location := None; d_time := None;
                       d_occasion := None; d_notes := [] |}
          end in
        Some {| date := date;
                day_of_week := day_of_week;
                service_name := service_name;
                location := d_location d;
                time := d_time d;
                occasion := d_occasion d;
                notes := match d_notes d with
                         | [] => None
                         | ns => Some (join (py (String "010" "")) ns)
                         end |}
      end
    end
  end.

(** The loop over [items], threading the list [services]. *)
Fixpoint scan_items (U : unicode_db) (items : list node)
         (services : list ChurchService) : list ChurchService :=
  match items with
  | [] => services
  | item :: rest =>
    match scan_item U item with
    | None => scan_items U rest services
    | Some r => scan_items U rest (services ++ [r])
    end
  end.

(** This script's own copy of [fetch_calendar], from the parsed page on. *)
Definition fetch_calendar (U : unicode_db) (soup : node) : list ChurchService :=
  let services := [] in
  match find (py "section") (Some (py "calendar")) soup with
  | None => services
  | Some calendar =>
    let items := find_all (py "div") (Some (py "calendar-item")) calendar in
    scan_items U items services
  end.

End ScrapeCalendar.

(* ===================================================================== *)
(** * print_calendar.py                                                   *)
(* ===================================================================== *)

Module PrintCalendar.

(** How the start of [main] ends: with the value read from the file, with
    [sys.exit(code)], or with the [JSONDecodeError] that [json.load] raises
    and [main] does not catch. *)
Inductive loaded :=
| Services (services : value)
| Exit (code : nat)
| DecodeError.

(** The [try] block of [main]; [file] is the text of the input file, [None]
    when there is no such file. *)
Definition load_services (file : option pystr) : loaded :=
  match file with
  | None => Exit 1
  | Some file_text =>
    match loads file_text with
    | Some services => Services services
    | None => DecodeError
    end
  end.

End PrintCalendar.

(* ===================================================================== *)
(** * What the specification says, in its own words                       *)
(* ===================================================================== *)

Module Spec.

(** The strings a pattern denotes. *)
Fixpoint lang (U : unicode_db) (r : regex) (m : pystr) : Prop :=
  match r with
  | RCls k => exists c, m = [c] /\ cls_matches U k c = true
  | REps => m = []
  | RSeq r1 r2 => exists m1 m2, m = m1 ++ m2 /\ lang U r1 m1 /\ lang U r2 m2
  | RStar k => forallb (cls_matches U k) m = true
  | RGroup r1 => lang U r1 m
  end.

(** A 4-digit year, a 2-digit month and a 2-digit day, with dashes. *)
Definition iso_date (U : unicode_db) (d : pystr) : Prop :=
  exists y mo dd,
    d = y ++ py "-" ++ mo ++ py "-" ++ dd
    /\ List.length y = 4%nat /\ List.length mo = 2%nat /\ List.length dd = 2%nat
    /\ forallb (is_digit U) y = true
    /\ forallb (is_digit U) mo = true
    /\ forallb (is_digit U) dd = true.

(** Such a date, a bar with optional white space around it, and a word. *)
Definition date_line (U : unicode_db) (m : pystr) : Prop :=
  exists d ws1 ws2 w,
    m = d ++ ws1 ++ py "|" ++ ws2 ++ w
    /\ iso_date U d
    /\ forallb is_space ws1 = true
    /\ forallb is_space ws2 = true
    /\ w <> []
    /\ forallb (is_word U) w = true.

(** The text has a substring of that shape. *)
Definition has_date_line (U : unicode_db) (text : pystr) : Prop :=
  exists pre m post, text = pre ++ m ++ post /\ date_line U m.

(** A well-formed entry: its meta text has a date line, and it has a
    content block. *)
Definition well_formed (U : unicode_db) (item : node) : Prop :=
  exists meta content,
    find (py "div") (Some (py "meta")) item = Some meta
    /\ has_date_line U (get_text meta)
    /\ find (py "div") (Some (py "calendar-item-content")) item = Some content.

(** The same test, as the code makes it. *)
Definition well_formedb (U : unicode_db) (item : node) : bool :=
  match find (py "div") (Some (py "meta")) item with
  | None => false
  | Some meta =>
    match search U FetchCalendar.date_re (get_text meta) with
    | None => false
    | Some _ =>
      match find (py "div") (Some (py "calendar-item-content")) item with
      | None => false
      | Some _ => true
      end
    end
  end.

(** The records a list of entries gives rise to, entry by entry. *)
Definition emitted (U : unicode_db) (items : list node)
  : list FetchCalendar.ChurchService :=
  flat_map (fun item => match FetchCalendar.scan_item U item with
                        | Some r => [r]
                        | None => []
                        end) items.

(** The fields of a record, for comparing records of the two scripts. *)
Definition fetch_fields (r : FetchCalendar.ChurchService) :=
  (FetchCalendar.date r, FetchCalendar.day_of_week r,
   FetchCalendar.service_name r, FetchCalendar.location r,
   FetchCalendar.time r, FetchCalendar.occasion r, FetchCalendar.notes r).

Definition scrape_fields (r : ScrapeCalendar.ChurchService) :=
  (ScrapeCalendar.date r, ScrapeCalendar.day_of_week r,
   ScrapeCalendar.service_name r, ScrapeCalendar.location r,
   ScrapeCalendar.time r, ScrapeCalendar.occasion r, ScrapeCalendar.notes r).

(** The first strong element of an entry's detail block, if there is one. *)
Definition first_strong (item : node) : option node :=
  match find (py "div") (Some (py "calendar-item-content")) item with
  | Some content =>
    match find (py "div") None content with
    | Some details_div => find (py "strong") None details_div
    | None => None
    end
  | None => None
  end.

(** The occasion, given the text of that element. *)
Definition occasion_of (first_text : option pystr) : option pystr :=
  match first_text with
  | Some t =>
    if truthy t && negb (existsb (pystr_eqb t) [py "Plats:"; py "Tid:"])
    then Some t
    else None
  | None => None
  end.

(** The values that are Python values: the keys of a dict are distinct. *)
Unset Elimination Schemes.
Inductive valid : value -> Prop :=
| valid_null : valid JNull
| valid_bool b : valid (JBool b)
| valid_str s : valid (JStr s)
| valid_arr xs : Forall valid xs -> valid (JArr xs)
| valid_obj kvs :
    NoDup (map fst kvs) -> Forall (fun kv => valid (snd kv)) kvs ->
    valid (JObj kvs).
Set Elimination Schemes.

(** The text of the items of a list after the first, and of the members of
    a dict after the first, as the encoder lays them out. *)
Definition items_tail (level : nat) (xs : list value) : pystr :=
  flat_map (fun y => py "," ++ newline_indent level ++ encode level y) xs.

Definition members_tail (level : nat) (kvs : list (pystr * value)) : pystr :=
  flat_map (fun m => py "," ++ newline_indent level
                     ++ encode_basestring (fst m) ++ py ": "
                     ++ encode level (snd m)) kvs.

(** However deep a value sits and whatever follows it, scanning its text
    gives the value back, provided the fuel is at least the length of the
    text. *)
Definition reads_back (v : value) : Prop :=
  forall level fuel rest,
    List.length (encode level v) <= fuel ->
    scan_once fuel (encode level v ++ rest) = Some (v, rest).

End Spec.
Import Spec.

(* ===================================================================== *)
(** * Sample pages                                                        *)
(* ===================================================================== *)

Module Examples.

Definition tag (name : string) (cs : list node) : node := Tag (py name) [] cs.

Definition div_class (c : string) (cs : list node) : node :=
  Tag (py "div") [(py "class", AttrList [py c])] cs.

(** The document node the parser returns. *)
Definition page (body : list node) : node := Tag (py "[document]") [] body.

Definition section_calendar (items : list node) : node :=
  Tag (py "section") [(py "class", AttrList [py "calendar"])] items.

Definition entry (meta_text : string) (content : list node) : node :=
  div_class "calendar-item"
    [div_class "meta" [Text (py meta_text)];
     div_class "calendar-item-content" content].

(** One entry: Friday evensong at 18:00. *)
Definition aftonsang_details : list node :=
  [tag "strong" [Text (py "Tid:")]; Text (py "18:00")].

Definition aftonsang_page : node :=
  page [section_calendar
          [entry "2026-02-20 | Fredag"
             [tag "h3" [Text (py "Aftonsång")]; tag "div" aftonsang_details]]].

(** An entry whose first bold label is [Plats:], with a bold feast name
    after it. *)
Definition plats_first_item : node :=
  entry "2026-02-22 | Fredag"
    [tag "h3" [Text (py "Liturgi")];
     tag "div" [tag "strong" [Text (py "Plats:")]; Text (py " Kyrkan ");
                tag "strong" [Text (py "Ortodoxins dag")]]].

(** A heading with nothing in it. *)
Definition empty_heading_page : node :=
  page [section_calendar
          [entry "2026-02-20 | Fredag" [tag "h3" []]]].

(** The place label is followed by a space and then by markup. *)
Definition blank_location_page : node :=
  page [section_calendar
          [entry "2026-02-20 | Fredag"
             [tag "h3" [Text (py "Liturgi")];
              tag "div" [tag "strong" [Text (py "Plats:")]; Text (py " ");
                         tag "em" [Text (py "Kyrkan")]]]]].

(** An entry without a date between two dated ones. *)
Definition undated_item : node :=
  entry "Fredag 20 februari" [tag "h3" [Text (py "Vesper")]].

Definition three_entries_calendar : node :=
  section_calendar
    [entry "2026-03-01 | Fredag" [tag "h3" [Text (py "Liturgi")]];
     undated_item;
     entry "2026-02-01 | Fredag" [tag "h3" [Text (py "Vesper")]]].

Definition three_entries_page : node := page [three_entries_calendar].

(** Pages without a calendar section, and with an empty one. *)
Definition no_calendar_page : node := page [tag "p" [Text (py "Hej")]].
Definition empty_calendar_page : node := page [section_calendar []].

(** Entries that miss the meta block, or have a date but no content block. *)
Definition no_meta_item : node :=
  div_class "calendar-item"
    [div_class "calendar-item-content" [tag "h3" [Text (py "Vesper")]]].

Definition no_content_item : node :=
  div_class "calendar-item" [div_class "meta" [Text (py "2026-02-20 | Fredag")]].

End Examples.

(* ===================================================================== *)
(** * The report loops of scrape_calendar.py and print_calendar.py        *)
(* ===================================================================== *)

Module Console.

(** The exceptions a turn of the report loop raises of its own. *)
Inductive exn :=
| KeyError (key : pystr)
| TypeError.

(** What a piece of a script does, seen from the console: it calls [print]
    with a string and, once that call has returned, goes on; or it comes to
    its end; or it raises.  Whether a call to [print] returns is the
    console's business (a string that the encoding of the terminal cannot
    hold makes it raise); the scripts handle no exception, so a call that
    does not return ends the script there, whatever comes next. *)
Inductive script :=
| Print (line : pystr) (next : script)
| Done
| Raise (e : exn).

(** [if field: print(f"  Label: {field}")] for an optional string. *)
Definition print_if (label : pystr) (o : option pystr) (next : script)
  : script :=
  match o with
  | Some s => if truthy s then Print (label ++ s) next else next
  | None => next
  end.

End Console.
Import Console.

Module ScrapeMain.

(** One turn of [for service in services:] in [main], followed by
    [next]. *)
Definition report_service (service : ScrapeCalendar.ChurchService)
           (next : script) : script :=
  Print ([10%N] ++ ScrapeCalendar.date service ++ py " ("
                ++ ScrapeCalendar.day_of_week service ++ py ")")
  (Print (py "  Service: " ++ ScrapeCalendar.service_name service)
  (print_if (py "  Occasion: ") (ScrapeCalendar.occasion service)
  (print_if (py "  Time: ") (ScrapeCalendar.time service)
  (print_if (py "  Location: ") (ScrapeCalendar.location service)
  (print_if (py "  Notes: ") (ScrapeCalendar.notes service) next))))).

(** The loop, followed by [next]. *)
Fixpoint for_services (services : list ScrapeCalendar.ChurchService)
         (next : script) : script :=
  match services with
  | [] => next
  | service :: rest => report_service service (for_services rest next)
  end.

End ScrapeMain.

Module PrintMain.

(** [d[key]] and [d.get(key)] on a dict. *)
Fixpoint lookup (key : pystr) (d : list (pystr * value)) : option value :=
  match d with
  | [] => None
  | (k, v) :: d' => if pystr_eqb k key then Some v else lookup key d'
  end.

(** Truthiness of a value. *)
Definition truthy_value (v : value) : bool :=
  match v with
  | JNull => false
  | JBool b => b
  | JStr s => truthy s
  | JArr l => match l with [] => false | _ => true end
  | JObj d => match d with [] => false | _ => true end
  end.

Section Format.

(** [str(v)] for a list or a dict, which an f-string falls back on; the
    scripts never write such a value into a field, so it is left open. *)
Variable str_of_container : value -> pystr.

(** [f"{v}"] *)
Definition format (v : value) : pystr :=
  match v with
  | JNull => py "None"
  | JBool true => py "True"
  | JBool false => py "False"
  | JStr s => s
  | _ => str_of_container v
  end.

(** [if service.get(key): print(f"  Label: {service[key]}")] *)
Definition print_if_get (label key : pystr) (d : list (pystr * value))
           (next : script) : script :=
  match lookup key d with
  | Some v => if truthy_value v then Print (label ++ format v) next else next
  | None => next
  end.

(** One turn of [for service in services:] in [main], followed by [next].
    Subscripting anything but a dict with a string is a [TypeError]; a
    missing key is a [KeyError].  The items are values of [Json.value]: the
    dicts made from records are among them, a dict with a number in it is
    not. *)
Definition report_service (service : value) (next : script) : script :=
  match service with
  | JObj d =>
    match lookup (py "date") d with
    | None => Raise (KeyError (py "date"))
    | Some date =>
      match lookup (py "day_of_week") d with
      | None => Raise (KeyError (py "day_of_week"))
      | Some day_of_week =>
        Print ([10%N] ++ format date ++ py " (" ++ format day_of_week ++ py ")")
        match lookup (py "service_name") d with
        | None => Raise (KeyError (py "service_name"))
        | Some service_name =>
          Print (py "  Service: " ++ format service_name)
          (print_if_get (py "  Occasion: ") (py "occasion") d
          (print_if_get (py "  Time: ") (py "time") d
          (print_if_get (py "  Location: ") (py "location") d
          (print_if_get (py "  Notes: ") (py "notes") d next))))
        end
      end
    end
  | _ => Raise TypeError
  end.

(** The loop over the items of a list, followed by [next]. *)
Fixpoint for_services (services : list value) (next : script) : script :=
  match services with
  | [] => next
  | service :: rest => report_service service (for_services rest next)
  end.

End Format.

End PrintMain.

(* ===================================================================== *)
(** * Notions used by the further properties                              *)
(* ===================================================================== *)

Module Props.

(** The strings a pattern denotes, each with the groups it captures. *)
Fixpoint glang (U : unicode_db) (r : regex) (m : pystr) (g : list pystr)
  : Prop :=
  match r with
  | RCls k => (exists c, m = [c] /\ cls_matches U k c = true) /\ g = []
  | REps => m = [] /\ g = []
  | RSeq r1 r2 =>
    exists m1 m2 g1 g2,
      m = m1 ++ m2 /\ g = g1 ++ g2 /\ glang U r1 m1 g1 /\ glang U r2 m2 g2
  | RStar k => forallb (cls_matches U k) m = true /\ g = []
  | RGroup r1 => exists g1, glang U r1 m g1 /\ g = m :: g1
  end.

(** [l] occurs in [s]. *)
Definition occurs_in (l s : pystr) : Prop := exists a b, s = a ++ l ++ b.

(** A string that is empty or starts with a character outside a class. *)
Definition stops (f : char -> bool) (s : pystr) : Prop :=
  match s with
  | [] => True
  | c :: _ => f c = false
  end.

(** A character other than the opening angle bracket. *)
Definition not_lt (c : char) : bool := negb (N.eqb c 60).

(** [s.startswith(l)] and [l in s]. *)
Fixpoint prefixb (l s : pystr) : bool :=
  match l, s with
  | [], _ => true
  | a :: l', b :: s' => N.eqb a b && prefixb l' s'
  | _ :: _, [] => false
  end.

Fixpoint occursb (l s : pystr) : bool :=
  prefixb l s || match s with
                 | [] => false
                 | _ :: s' => occursb l s'
                 end.

(** In [text], a strong element that holds [label] (white space around it
    allowed) is directly followed by a character other than the opening
    bracket of a tag. *)
Definition label_followed (label text : pystr) : Prop :=
  exists pre ws1 ws2 c post,
    text = pre ++ py "<strong>" ++ ws1 ++ label ++ ws2 ++ py "</strong>"
               ++ c :: post
    /\ forallb is_space ws1 = true /\ forallb is_space ws2 = true
    /\ c <> 60%N.

(** A string without white space at either end: [s.strip() == s]. *)
Definition trimmed (s : pystr) : Prop := strip s = s.

(** A node that is written out between marks: a tag, a comment, or a
    string of one of the classes with a prefix and a suffix. *)
Definition is_markup (n : node) : bool :=
  match n with
  | Text _ => false
  | Special k _ => match preformatted k with Some _ => true | None => false end
  | _ => true
  end.

(** Attempts put together: text in front of an attempt, one attempt after
    another, and an attempt closed as a group. *)
Definition push (w : pystr) (a : attempt) : attempt :=
  {| consumed := w ++ consumed a; groups := groups a; remainder := remainder a |}.

Definition combine (a1 a2 : attempt) : attempt :=
  {| consumed := consumed a1 ++ consumed a2;
     groups := groups a1 ++ groups a2;
     remainder := remainder a2 |}.

Definition capture (a : attempt) : attempt :=
  {| consumed := consumed a; groups := consumed a :: groups a;
     remainder := remainder a |}.

(** The end of the label patterns: white space, then the captured run. *)
Definition value_re : regex :=
  RSeq (RStar CSpace) (RSeq (RGroup (rplus (CNotChar 60%N))) REps).

(** A non-empty string without white space at either end. *)
Definition edges (s : pystr) : Prop :=
  s <> [] /\ stops is_space s /\ stops is_space (rev s).

End Props.
Import Props.

Module MoreExamples.

(** A detail block with a leading occasion, both labels and a paragraph. *)
Definition sermon_details : list node :=
  [Examples.tag "strong" [Text (py "Inbjuden predikant")];
   Examples.tag "br" [];
   Examples.tag "strong" [Text (py "Plats:")];
   Text (py " Kyrkan & salen ");
   Examples.tag "br" [];
   Examples.tag "strong" [Text (py " Tid: ")];
   Text (py " 10:00");
   Examples.tag "p" [Text (py " Kaffe efteråt. ")];
   Examples.tag "p" [Text (py "  ")]].

Definition sermon_div : node := Examples.tag "div" sermon_details.

Definition sermon_content : node :=
  Examples.div_class "calendar-item-content"
    [Examples.tag "h3" [Text (py " Helig liturgi ")]; sermon_div].

Definition sermon_meta : node :=
  Examples.div_class "meta" [Text (py "Vecka 9: 2026-03-01 |  Söndag, kl")].

Definition sermon_item : node :=
  Examples.div_class "calendar-item" [sermon_meta; sermon_content].

Definition sermon_page : node :=
  Examples.page [Examples.section_calendar [sermon_item]].

(** The place label is directly followed by a tag. *)
Definition tagged_place_div : node :=
  Examples.tag "div"
    [Examples.tag "strong" [Text (py "Plats:")];
     Examples.tag "span" [Text (py "Kyrkan")]].

Definition tagged_place_content : node :=
  Examples.div_class "calendar-item-content"
    [Examples.tag "h3" [Text (py "Vesper")]; tagged_place_div].

Definition tagged_place_item : node :=
  Examples.div_class "calendar-item"
    [Examples.div_class "meta" [Text (py "2026-03-02 | Fredag")];
     tagged_place_content].

(** An entry whose only paragraph holds a script and a comment. *)
Definition script_note_div : node :=
  Examples.tag "div"
    [Examples.tag "p"
       [Examples.tag "script" [Special Script (py "x")];
        Comment (py "y"); Text (py " ")]].

Definition script_note_content : node :=
  Examples.div_class "calendar-item-content"
    [Examples.tag "h3" [Text (py "Vesper")]; script_note_div].

Definition script_note_item : node :=
  Examples.div_class "calendar-item"
    [Examples.div_class "meta" [Text (py "2026-03-02 | Fredag")];
     script_note_content].

End MoreExamples.

(* ===================================================================== *)
(** * The pattern matcher finds exactly the strings its pattern denotes   *)
(* ===================================================================== *)

Section Matcher.

Variable U : unicode_db.

Lemma star_attempts_sound k : forall s a,
  In a (star_attempts U k s) ->
  s = consumed a ++ remainder a
  /\ forallb (cls_matches U k) (consumed a) = true.
Proof.
  induction s as [|c s IH]; intros a H; simpl in H.
  - destruct H as [<-|[]]; auto.
  - destruct (cls_matches U k c) eqn:E.
    + apply in_app_or in H as [H|[<-|[]]]; [|auto].
      apply in_map_iff in H as [b [<- Hb]].
      apply IH in Hb as [Hs Hm]. simpl. rewrite E, Hm.
      split; [f_equal; exact Hs|reflexivity].
    + destruct H as [<-|[]]; auto.
Qed.

Lemma star_attempts_empty k s :
  In {| consumed := []; groups := []; remainder := s |} (star_attempts U k s).
Proof.
  destruct s as [|c s]; simpl; auto.
  destruct (cls_matches U k c); [apply in_or_app; right|]; simpl; auto.
Qed.

Lemma star_attempts_complete k : forall m rest,
  forallb (cls_matches U k) m = true ->
  exists g, In {| consumed := m; groups := g; remainder := rest |}
               (star_attempts U k (m ++ rest)).
Proof.
  induction m as [|c m IH]; intros rest H.
  - exists []. apply star_attempts_empty.
  - simpl in H. apply andb_true_iff in H as [Hc Hm].
    destruct (IH rest Hm) as [g Hg]. exists g. simpl. rewrite Hc.
    apply in_or_app. left.
    apply in_map_iff. eexists. split; [|exact Hg]. reflexivity.
Qed.

Lemma attempts_sound r : forall s a,
  In a (attempts U r s) ->
  s = consumed a ++ remainder a /\ lang U r (consumed a).
Proof.
  induction r as [k| |r1 IH1 r2 IH2|k|r IH]; intros s a H; simpl in H.
  - destruct s as [|c s]; [contradiction|].
    destruct (cls_matches U k c) eqn:E; [|contradiction].
    destruct H as [<-|[]]. simpl. eauto.
  - destruct H as [<-|[]]. simpl. auto.
  - apply in_flat_map in H as [a1 [H1 H2]].
    apply in_map_iff in H2 as [a2 [<- H2]].
    apply IH1 in H1 as [E1 L1]. apply IH2 in H2 as [E2 L2]. simpl.
    split.
    + rewrite <- app_assoc, <- E2. exact E1.
    + eauto.
  - now apply star_attempts_sound.
  - apply in_map_iff in H as [b [<- Hb]]. apply IH in Hb. exact Hb.
Qed.

Lemma attempts_complete r : forall m rest,
  lang U r m ->
  exists g, In {| consumed := m; groups := g; remainder := rest |}
               (attempts U r (m ++ rest)).
Proof.
  induction r as [k| |r1 IH1 r2 IH2|k|r IH]; intros m rest H; simpl in H.
  - destruct H as [c [-> Hc]]. exists []. simpl. rewrite Hc. simpl. auto.
  - subst m. exists []. simpl. auto.
  - destruct H as [m1 [m2 [-> [H1 H2]]]].
    destruct (IH1 m1 (m2 ++ rest) H1) as [g1 G1].
    destruct (IH2 m2 rest H2) as [g2 G2].
    exists (g1 ++ g2). simpl. rewrite <- app_assoc.
    apply in_flat_map. eexists. split; [exact G1|]. simpl.
    apply in_map_iff. eexists. split; [|exact G2]. reflexivity.
  - now apply star_attempts_complete.
  - destruct (IH m rest H) as [g G]. exists (m :: g). simpl.
    apply in_map_iff. eexists. split; [|exact G]. reflexivity.
Qed.

(** A successful search returns an attempt made at some position. *)
Lemma search_some r : forall s a,
  search U r s = Some a ->
  exists pre, s = pre ++ consumed a ++ remainder a
              /\ In a (attempts U r (consumed a ++ remainder a)).
Proof.
  induction s as [|c s IH]; intros a H; simpl in H; unfold re_match in H.
  - destruct (attempts U r []) as [|b l] eqn:E; simpl in H; [discriminate|].
    injection H as ->. exists [].
    assert (Hin : In a (attempts U r [])) by (rewrite E; simpl; auto).
    destruct (attempts_sound _ _ _ Hin) as [Es _]. rewrite <- Es. auto.
  - destruct (attempts U r (c :: s)) as [|b l] eqn:E; simpl in H.
    + apply IH in H as [pre [Hs Hin]]. exists (c :: pre). simpl.
      split; [congruence|exact Hin].
    + injection H as ->. exists [].
      assert (Hin : In a (attempts U r (c :: s))) by (rewrite E; simpl; auto).
      destruct (attempts_sound _ _ _ Hin) as [Es _]. rewrite <- Es. auto.
Qed.

(** A failed search means no attempt succeeds at any position. *)
Lemma search_none r : forall pre t,
  search U r (pre ++ t) = None -> attempts U r t = [].
Proof.
  induction pre as [|c pre IH]; intros t H.
  - simpl in H. destruct t as [|c t]; simpl in H; unfold re_match in H.
    + destruct (attempts U r []); [reflexivity|discriminate].
    + destruct (attempts U r (c :: t)); [reflexivity|discriminate].
  - simpl in H. destruct (re_match U r (c :: pre ++ t)); [discriminate|].
    now apply IH.
Qed.

(** [re.search] fails exactly when no substring is in the language. *)
Lemma search_None_iff r s :
  search U r s = None <->
  (forall pre m post, s = pre ++ m ++ post -> ~ lang U r m).
Proof.
  split.
  - intros H pre m post -> L.
    apply search_none in H.
    destruct (attempts_complete r m post L) as [g G].
    rewrite H in G. contradiction.
  - intros H. destruct (search U r s) as [a|] eqn:E; [|reflexivity].
    exfalso. apply search_some in E as [pre [Es Hin]].
    apply attempts_sound in Hin as [_ L].
    exact (H pre (consumed a) (remainder a) Es L).
Qed.

Lemma lang_rlit s m : lang U (rlit s) m <-> m = s.
Proof.
  revert m. induction s as [|c s IH]; intros m; simpl.
  - reflexivity.
  - split.
    + intros [m1 [m2 [-> [[d [-> Hd]] H2]]]].
      apply N.eqb_eq in Hd. subst d. apply IH in H2. now subst.
    + intros ->. exists [c], s. repeat split.
      * exists c. split; [reflexivity|apply N.eqb_refl].
      * now apply IH.
Qed.

Lemma lang_rrep n k m :
  lang U (rrep n k) m <->
  List.length m = n /\ forallb (cls_matches U k) m = true.
Proof.
  revert m. induction n as [|n IH]; intros m; simpl.
  - split.
    + intros ->. auto.
    + intros [H _]. now destruct m.
  - split.
    + intros [m1 [m2 [-> [[d [-> Hd]] H2]]]].
      apply IH in H2 as [Hl Hf]. simpl. rewrite Hd, Hf, Hl. auto.
    + intros [Hl Hf]. destruct m as [|c m]; [discriminate|].
      simpl in Hl, Hf. apply andb_true_iff in Hf as [Hc Hf].
      exists [c], m. repeat split; eauto.
      apply IH. split; [lia|assumption].
Qed.

Lemma lang_rplus k m :
  lang U (rplus k) m <-> m <> [] /\ forallb (cls_matches U k) m = true.
Proof.
  simpl. split.
  - intros [m1 [m2 [-> [[d [-> Hd]] H2]]]]. simpl. rewrite Hd, H2.
    split; [discriminate|reflexivity].
  - intros [Hn Hf]. destruct m as [|c m]; [contradiction|].
    simpl in Hf. apply andb_true_iff in Hf as [Hc Hf].
    exists [c], m. eauto.
Qed.

End Matcher.

(* ===================================================================== *)
(** * The date pattern and the specification's date line                  *)
(* ===================================================================== *)

Section DateLine.

Variable U : unicode_db.

Lemma lang_date_re m : lang U FetchCalendar.date_re m <-> date_line U m.
Proof.
  unfold FetchCalendar.date_re. cbn [rseq fold_right lang]. split.
  - intros (d & r1 & -> & (y & q1 & -> & Hy & (s1 & q2 & -> & Hs1 &
             (mo & q3 & -> & Hmo & (s2 & q4 & -> & Hs2 &
             (dd & q5 & -> & Hdd & ->))))) &
            (ws1 & r2 & -> & Hws1 & (bar & r3 & -> & Hbar &
            (ws2 & r4 & -> & Hws2 & (w & r5 & -> & Hw & ->))))).
    apply lang_rrep in Hy as [Ly Fy]. apply lang_rrep in Hmo as [Lmo Fmo].
    apply lang_rrep in Hdd as [Ldd Fdd].
    apply lang_rlit in Hs1, Hs2, Hbar. subst s1 s2 bar.
    apply lang_rplus in Hw as [Nw Fw].
    exists (y ++ py "-" ++ mo ++ py "-" ++ dd), ws1, ws2, w.
    rewrite !app_nil_r. repeat split; try assumption.
    exists y, mo, dd. repeat split; assumption.
  - intros (d & ws1 & ws2 & w & -> & (y & mo & dd & -> & Ly & Lmo & Ldd & Fy & Fmo & Fdd)
            & Hws1 & Hws2 & Nw & Fw).
    exists (y ++ py "-" ++ mo ++ py "-" ++ dd), (ws1 ++ py "|" ++ ws2 ++ w).
    split; [reflexivity|]. split.
    + exists y, (py "-" ++ mo ++ py "-" ++ dd). split; [reflexivity|].
      split; [apply lang_rrep; split; assumption|].
      exists (py "-"), (mo ++ py "-" ++ dd). split; [reflexivity|].
      split; [now apply lang_rlit|].
      exists mo, (py "-" ++ dd). split; [reflexivity|].
      split; [apply lang_rrep; split; assumption|].
      exists (py "-"), dd. split; [reflexivity|].
      split; [now apply lang_rlit|].
      exists dd, []. rewrite app_nil_r. split; [reflexivity|].
      split; [apply lang_rrep; split; assumption|reflexivity].
    + exists ws1, (py "|" ++ ws2 ++ w). split; [reflexivity|].
      split; [exact Hws1|].
      exists (py "|"), (ws2 ++ w). split; [reflexivity|].
      split; [now apply lang_rlit|].
      exists ws2, w. split; [reflexivity|]. split; [exact Hws2|].
      exists w, []. rewrite app_nil_r. split; [reflexivity|].
      split; [apply lang_rplus; split; assumption|reflexivity].
Qed.

(** The search for the date pattern fails exactly on the texts without a
    date line. *)
Lemma search_date_None text :
  search U FetchCalendar.date_re text = None <-> ~ has_date_line U text.
Proof.
  rewrite search_None_iff. split.
  - intros H (pre & m & post & E & D). apply (H pre m post E).
    now apply lang_date_re.
  - intros H pre m post E L. apply H. exists pre, m, post.
    split; [exact E|now apply lang_date_re].
Qed.

Lemma search_date_Some text :
  (exists a, search U FetchCalendar.date_re text = Some a)
  <-> has_date_line U text.
Proof.
  split.
  - intros [a Ha]. apply search_some in Ha as (pre & E & Hin).
    apply attempts_sound in Hin as [_ L].
    exists pre, (consumed a), (remainder a). split; [exact E|].
    now apply lang_date_re.
  - intros H. destruct (search U FetchCalendar.date_re text) as [a|] eqn:E.
    + eauto.
    + apply search_date_None in E. contradiction.
Qed.

End DateLine.

(* ===================================================================== *)
(** * Trees                                                               *)
(* ===================================================================== *)

Section Trees.

(** Induction on trees, with the hypothesis for every child of a tag. *)
Lemma node_ind (P : node -> Prop) :
  (forall s, P (Text s)) ->
  (forall s, P (Comment s)) ->
  (forall k s, P (Special k s)) ->
  (forall name attrs cs, Forall P cs -> P (Tag name attrs cs)) ->
  forall n, P n.
Proof.
  intros HT HC HS HG.
  fix IH 1. intros [s|s|k s|name attrs cs].
  - apply HT.
  - apply HC.
  - apply HS.
  - apply HG. induction cs as [|c cs IHcs]; constructor.
    + apply IH.
    + exact IHcs.
Qed.

Lemma subtree_eq n : subtree n = n :: descendants n.
Proof. destruct n; reflexivity. Qed.

(** The subtree of a node sits, as one block, inside the subtree of every
    node above it. *)
Lemma subtree_split m : forall n,
  In n (subtree m) -> exists l1 l2, subtree m = l1 ++ subtree n ++ l2.
Proof.
  induction m as [s|s|k s|name attrs cs IH] using node_ind; intros n H.
  - destruct H as [<-|[]]. exists [], []. reflexivity.
  - destruct H as [<-|[]]. exists [], []. reflexivity.
  - destruct H as [<-|[]]. exists [], []. reflexivity.
  - destruct H as [<-|H].
    + exists [], []. rewrite app_nil_r. reflexivity.
    + apply in_flat_map in H as (c & Hc & Hn).
      rewrite Forall_forall in IH.
      destruct (IH c Hc n Hn) as (l1 & l2 & E).
      apply in_split in Hc as (a & b & ->).
      exists (Tag name attrs (a ++ c :: b) :: flat_map subtree a ++ l1),
             (l2 ++ flat_map subtree b).
      cbn [subtree]. rewrite flat_map_app. cbn [flat_map]. rewrite E.
      rewrite <- app_comm_cons, <- !app_assoc. reflexivity.
Qed.

Lemma descendants_split root n :
  In n (descendants root) ->
  exists l1 l2, descendants root = l1 ++ (n :: descendants n) ++ l2.
Proof.
  unfold descendants at 1 2. intros H.
  apply in_flat_map in H as (c & Hc & Hn).
  destruct (subtree_split c n Hn) as (l1 & l2 & E).
  apply in_split in Hc as (a & b & ->).
  exists (flat_map subtree a ++ l1), (l2 ++ flat_map subtree b).
  rewrite flat_map_app. cbn [flat_map]. rewrite E, subtree_eq.
  rewrite <- !app_assoc. reflexivity.
Qed.

(** What [find] returns is a matching descendant. *)
Lemma find_In name class_ n x :
  find name class_ n = Some x ->
  In x (descendants n) /\ matches name class_ x = true.
Proof.
  unfold find, find_all. intros H.
  destruct (filter (matches name class_) (descendants n)) as [|y l] eqn:E;
    [discriminate|].
  injection H as ->.
  apply filter_In. rewrite E. simpl. auto.
Qed.

(** [find] is [None] exactly when [find_all] is empty. *)
Lemma find_None name class_ n :
  find name class_ n = None <-> find_all name class_ n = [].
Proof.
  unfold find. destruct (find_all name class_ n); simpl; split; congruence.
Qed.

(** Searching below a descendant finds no more than searching from the
    root. *)
Lemma find_all_length_le name class_ root n :
  In n (descendants root) ->
  List.length (find_all name class_ n)
  <= List.length (find_all name class_ root).
Proof.
  intros H. apply descendants_split in H as (l1 & l2 & E).
  unfold find_all. rewrite E. rewrite !filter_app, !length_app.
  cbn [filter]. destruct (matches name class_ n); simpl; lia.
Qed.

End Trees.

(* ===================================================================== *)
(** * The loop of [fetch_calendar]                                        *)
(* ===================================================================== *)

Section Loop.

Variable U : unicode_db.

(** The loop appends, entry by entry, what each entry gives. *)
Lemma scan_items_emitted items : forall services,
  FetchCalendar.scan_items U items services = services ++ emitted U items.
Proof.
  induction items as [|item rest IH]; intros services; simpl.
  - now rewrite app_nil_r.
  - unfold emitted in *. destruct (FetchCalendar.scan_item U item) as [r|].
    + rewrite IH, <- app_assoc. reflexivity.
    + apply IH.
Qed.

Lemma fetch_calendar_emitted soup :
  FetchCalendar.fetch_calendar U soup =
  match find (py "section") (Some (py "calendar")) soup with
  | None => []
  | Some calendar =>
    emitted U (find_all (py "div") (Some (py "calendar-item")) calendar)
  end.
Proof.
  unfold FetchCalendar.fetch_calendar.
  destruct (find (py "section") (Some (py "calendar")) soup); [|reflexivity].
  apply scan_items_emitted.
Qed.

Lemma emitted_app l1 l2 : emitted U (l1 ++ l2) = emitted U l1 ++ emitted U l2.
Proof. apply flat_map_app. Qed.

Lemma emitted_length items : List.length (emitted U items) <= List.length items.
Proof.
  induction items as [|item rest IH]; simpl; [lia|].
  destruct (FetchCalendar.scan_item U item); simpl; lia.
Qed.

(** An entry gives a record exactly when it passes the three tests. *)
Lemma scan_item_None item :
  FetchCalendar.scan_item U item = None <-> well_formedb U item = false.
Proof.
  unfold FetchCalendar.scan_item, well_formedb.
  destruct (find (py "div") (Some (py "meta")) item) as [meta|]; [|tauto].
  destruct (search U FetchCalendar.date_re (get_text meta)); [|tauto].
  destruct (find (py "div") (Some (py "calendar-item-content")) item);
    split; intros; congruence.
Qed.

Lemma scan_item_Some item :
  (exists r, FetchCalendar.scan_item U item = Some r)
  <-> well_formedb U item = true.
Proof.
  destruct (FetchCalendar.scan_item U item) as [r|] eqn:E.
  - split; [intros _|eauto].
    destruct (well_formedb U item) eqn:W; [reflexivity|].
    apply scan_item_None in W. congruence.
  - apply scan_item_None in E. rewrite E. split; [intros [r H]|]; discriminate.
Qed.

(** The code's test is the specification's notion of a well-formed entry. *)
Lemma well_formedb_iff item :
  well_formedb U item = true <-> well_formed U item.
Proof.
  unfold well_formedb, well_formed. split.
  - destruct (find (py "div") (Some (py "meta")) item) as [meta|];
      [|discriminate].
    destruct (search U FetchCalendar.date_re (get_text meta)) as [a|] eqn:S;
      [|discriminate].
    destruct (find (py "div") (Some (py "calendar-item-content")) item)
      as [content|]; [|discriminate].
    intros _. exists meta, content. repeat split.
    apply search_date_Some. eauto.
  - intros (meta & content & -> & D & ->).
    apply search_date_Some in D as [a ->]. reflexivity.
Qed.

(** The records pair off, in order, with the well-formed entries. *)
Lemma emitted_well_formed items :
  Forall2 (fun item r => FetchCalendar.scan_item U item = Some r)
          (filter (well_formedb U) items) (emitted U items).
Proof.
  induction items as [|item rest IH]; simpl; [constructor|].
  destruct (FetchCalendar.scan_item U item) as [r|] eqn:E.
  - assert (W : well_formedb U item = true) by (apply scan_item_Some; eauto).
    rewrite W. simpl. constructor; assumption.
  - apply scan_item_None in E. rewrite E. exact IH.
Qed.

End Loop.

(* ===================================================================== *)
(** * Strings: comparison, stripping, flattened text                    *)
(* ===================================================================== *)

Section Strings.

Lemma pystr_eqb_eq a b : pystr_eqb a b = true <-> a = b.
Proof.
  unfold pystr_eqb. destruct (pystr_eq_dec a b); split; congruence.
Qed.

(** A node that passes the filter is a tag of the name asked for. *)
Lemma matches_name name class_ n :
  matches name class_ n = true -> name_of n = name.
Proof.
  destruct n as [s|s|k s|nm attrs cs]; try discriminate. simpl.
  intros H. apply andb_prop in H as [H _]. now apply pystr_eqb_eq.
Qed.

(** A tag that [find] returns is written out as the markup of its contents
    when the name asked for is neither [script] nor [style], and takes the
    plain texts when the name is no string container. *)
Lemma find_name name class_ n x :
  find name class_ n = Some x -> name_of x = name.
Proof.
  unfold find, find_all. intros H.
  destruct (filter (matches name class_) (descendants n)) as [|y l] eqn:E;
    [discriminate|].
  injection H as ->.
  assert (Hx : In x (filter (matches name class_) (descendants n)))
    by (rewrite E; simpl; auto).
  apply filter_In in Hx as [_ Hx]. now apply matches_name in Hx.
Qed.

Lemma lstrip_cases s :
  (lstrip s = [] /\ forallb is_space s = true)
  \/ (exists c t, lstrip s = c :: t /\ is_space c = false).
Proof.
  induction s as [|c s IH]; simpl.
  - left. auto.
  - destruct (is_space c) eqn:E; simpl.
    + exact IH.
    + right. eauto.
Qed.

Lemma forallb_rev {A} (f : A -> bool) l :
  forallb f (rev l) = forallb f l.
Proof.
  induction l as [|x l IH]; simpl; [reflexivity|].
  rewrite forallb_app, IH. simpl. rewrite andb_true_r. apply andb_comm.
Qed.

(** Stripping leaves nothing exactly when the string is all white space. *)
Lemma strip_nil s : strip s = [] <-> forallb is_space s = true.
Proof.
  unfold strip, rstrip. split.
  - intros H.
    destruct (lstrip_cases s) as [[_ F]|(c & t & E & Hc)]; [exact F|].
    exfalso. rewrite E in H.
    assert (R : lstrip (rev (c :: t)) = []).
    { destruct (lstrip (rev (c :: t))) as [|x l]; [reflexivity|].
      apply (f_equal (@List.length _)) in H.
      rewrite length_rev in H. discriminate. }
    destruct (lstrip_cases (rev (c :: t))) as [[_ F]|(x & l & E' & _)];
      [|congruence].
    rewrite forallb_rev in F. simpl in F. rewrite Hc in F. discriminate.
  - intros F. destruct (lstrip_cases s) as [[E _]|(c & t & E & Hc)].
    + rewrite E. reflexivity.
    + exfalso. clear -F E Hc.
      induction s as [|x s IH]; simpl in *; [discriminate|].
      apply andb_true_iff in F as [Fx Fs]. rewrite Fx in E. auto.
Qed.

Lemma concat_nil (l : list pystr) :
  Forall (fun s => s <> []) l -> concat l = [] -> l = [].
Proof.
  intros F H. destruct l as [|s l]; [reflexivity|].
  inversion F as [|? ? Hs _]. simpl in H.
  apply app_eq_nil in H as [H _]. contradiction.
Qed.

Lemma stripped_strings_nonempty n :
  Forall (fun s => s <> []) (stripped_strings n).
Proof.
  unfold stripped_strings. apply Forall_forall. intros s H.
  apply in_flat_map in H as (d & _ & H).
  destruct (interesting (name_of n) d) as [t|]; [|contradiction].
  simpl in H. destruct (strip t) as [|c u] eqn:E; simpl in H; [contradiction|].
  destruct H as [<-|[]]. discriminate.
Qed.

(** What a tag that is no string container takes: the plain texts and the
    [CData] sections. *)
Lemma interesting_plain name d s :
  string_containers name = None ->
  interesting name d = Some s <-> d = Text s \/ d = Special CData s.
Proof.
  intros E. unfold interesting. rewrite E. split.
  - destruct d as [t|t|[] t|nm attrs cs]; intros H; try discriminate;
      injection H as <-; auto.
  - intros [-> | ->]; reflexivity.
Qed.

(** The flattened text of a tag is empty exactly when every string it
    takes is white space only. *)
Lemma get_text_nil n :
  get_text n = [] <->
  (forall d s, In d (descendants n) -> interesting (name_of n) d = Some s ->
               forallb is_space s = true).
Proof.
  unfold get_text. split.
  - intros H d s Hin Hd. apply concat_nil in H; [|apply stripped_strings_nonempty].
    apply strip_nil. destruct (strip s) as [|c u] eqn:E; [reflexivity|].
    exfalso.
    assert (Hs : In (c :: u) (stripped_strings n)).
    { unfold stripped_strings. apply in_flat_map.
      exists d. split; [exact Hin|].
      rewrite Hd. simpl. rewrite E. simpl. auto. }
    rewrite H in Hs. contradiction.
  - intros H. unfold stripped_strings.
    induction (descendants n) as [|d l IH]; [reflexivity|].
    cbn [flat_map]. rewrite concat_app.
    rewrite IH by (intros d' s Hs; apply H; simpl; auto).
    rewrite app_nil_r.
    destruct (interesting (name_of n) d) as [t|] eqn:Ed; [|reflexivity].
    assert (E : strip t = []) by (apply strip_nil, (H d); simpl; auto).
    simpl. rewrite E. reflexivity.
Qed.

(** For a tag that is no string container: the flattened text is empty
    exactly when every plain text and every [CData] section below it is
    white space only. *)
Lemma get_text_nil_plain n :
  string_containers (name_of n) = None ->
  get_text n = [] <->
  (forall s, In (Text s) (descendants n) \/ In (Special CData s) (descendants n) ->
             forallb is_space s = true).
Proof.
  intros E. rewrite get_text_nil. split.
  - intros H s [Hs|Hs].
    + apply (H (Text s)); [exact Hs|]. now apply interesting_plain; auto.
    + apply (H (Special CData s)); [exact Hs|]. now apply interesting_plain; auto.
  - intros H d s Hin Hd. apply (interesting_plain _ _ _ E) in Hd.
    apply H. destruct Hd as [-> | ->]; auto.
Qed.

Lemma join_nonempty sep p rest : p <> [] -> join sep (p :: rest) <> [].
Proof.
  intros Hp. simpl. destruct rest; [exact Hp|].
  intros H. apply app_eq_nil in H as [H _]. contradiction.
Qed.

End Strings.

(* ===================================================================== *)
(** * The fields of a record                                            *)
(* ===================================================================== *)

(** A record comes from an entry that passed the tests; its fields are read
    off that entry's content block. *)
Lemma scan_item_fields (U : unicode_db) (item : node)
      (r : FetchCalendar.ChurchService) :
  FetchCalendar.scan_item U item = Some r ->
  exists content,
    find (py "div") (Some (py "calendar-item-content")) item = Some content
    /\ FetchCalendar.service_name r
       = match find (py "h3") None content with
         | Some h3 => get_text h3
         | None => py "Unknown"
         end
    /\ match find (py "div") None content with
       | Some details_div =>
         FetchCalendar.location r
           = FetchCalendar.d_location (FetchCalendar.scan_details U details_div)
         /\ FetchCalendar.time r
           = FetchCalendar.d_time (FetchCalendar.scan_details U details_div)
         /\ FetchCalendar.occasion r
           = FetchCalendar.d_occasion (FetchCalendar.scan_details U details_div)
         /\ FetchCalendar.notes r
           = match FetchCalendar.d_notes (FetchCalendar.scan_details U details_div) with
             | [] => None
             | ns => Some (join (py (String "010" "")) ns)
             end
       | None =>
         FetchCalendar.location r = None /\ FetchCalendar.time r = None
         /\ FetchCalendar.occasion r = None /\ FetchCalendar.notes r = None
       end.
Proof.
  unfold FetchCalendar.scan_item. intros H.
  destruct (find (py "div") (Some (py "meta")) item) as [meta|]; [|discriminate].
  destruct (search U FetchCalendar.date_re (get_text meta)); [|discriminate].
  destruct (find (py "div") (Some (py "calendar-item-content")) item)
    as [content|]; [|discriminate].
  injection H as <-. exists content. split; [reflexivity|].
  split; [reflexivity|].
  destruct (find (py "div") None content); simpl; auto.
Qed.

(** Every record of the result was given by one of the entries. *)
Lemma fetch_calendar_In (U : unicode_db) (soup : node)
      (r : FetchCalendar.ChurchService) :
  In r (FetchCalendar.fetch_calendar U soup) ->
  exists item, FetchCalendar.scan_item U item = Some r.
Proof.
  rewrite fetch_calendar_emitted.
  destruct (find (py "section") (Some (py "calendar")) soup); [|contradiction].
  unfold emitted. intros H. apply in_flat_map in H as (item & _ & H).
  exists item. destruct (FetchCalendar.scan_item U item); [|contradiction].
  destruct H as [<-|[]]. reflexivity.
Qed.

(** The occasion of a record is a function of the text of the entry's
    first strong element. *)
Lemma scan_item_occasion (U : unicode_db) (item : node)
      (r : FetchCalendar.ChurchService) :
  FetchCalendar.scan_item U item = Some r ->
  FetchCalendar.occasion r
  = occasion_of (option_map get_text (first_strong item)).
Proof.
  intros H. apply scan_item_fields in H as (content & Hc & _ & Hd).
  unfold first_strong. rewrite Hc.
  destruct (find (py "div") None content) as [details_div|].
  - destruct Hd as (_ & _ & -> & _).
    unfold FetchCalendar.scan_details. cbn [FetchCalendar.d_occasion].
    destruct (find (py "strong") None details_div); reflexivity.
  - destruct Hd as (_ & _ & -> & _). reflexivity.
Qed.

(** The notes collected from the paragraphs are all non-empty. *)
Lemma notes_loop_nonempty (ps : list node) : forall notes,
  Forall (fun s => s <> []) notes ->
  Forall (fun s => s <> [])
         (fold_left (fun notes p =>
                       let p_text := get_text p in
                       if truthy p_text then notes ++ [p_text] else notes)
                    ps notes).
Proof.
  induction ps as [|p ps IH]; intros notes F; simpl; [exact F|].
  apply IH. destruct (get_text p) as [|c t] eqn:E; simpl; [exact F|].
  apply Forall_app. split; [exact F|]. constructor; [discriminate|constructor].
Qed.

Lemma date_line_fredag : date_line latin1_db (py "2026-02-20 | Fredag").
Proof.
  exists (py "2026-02-20"), (py " "), (py " "), (py "Fredag").
  repeat split; try discriminate.
  exists (py "2026"), (py "02"), (py "20"). repeat split.
Qed.

(* ===================================================================== *)
(** * The two copies of the extraction                                  *)
(* ===================================================================== *)

Lemma scan_item_copies (U : unicode_db) (item : node) :
  option_map fetch_fields (FetchCalendar.scan_item U item)
  = option_map scrape_fields (ScrapeCalendar.scan_item U item).
Proof.
  unfold FetchCalendar.scan_item, ScrapeCalendar.scan_item.
  change ScrapeCalendar.date_re with FetchCalendar.date_re.
  destruct (find (py "div") (Some (py "meta")) item) as [meta|]; [|reflexivity].
  destruct (search U FetchCalendar.date_re (get_text meta)); [|reflexivity].
  destruct (find (py "div") (Some (py "calendar-item-content")) item)
    as [content|]; [|reflexivity].
  destruct (find (py "div") None content); reflexivity.
Qed.

Lemma scan_items_copies (U : unicode_db) (items : list node) :
  forall acc1 acc2,
    map fetch_fields acc1 = map scrape_fields acc2 ->
    map fetch_fields (FetchCalendar.scan_items U items acc1)
    = map scrape_fields (ScrapeCalendar.scan_items U items acc2).
Proof.
  induction items as [|item rest IH]; intros acc1 acc2 H; simpl; [exact H|].
  pose proof (scan_item_copies U item) as E.
  destruct (FetchCalendar.scan_item U item) as [r1|];
    destruct (ScrapeCalendar.scan_item U item) as [r2|];
    cbn [option_map] in E; try discriminate.
  - assert (E' : fetch_fields r1 = scrape_fields r2) by congruence.
    apply IH. rewrite !map_app. cbn [map]. rewrite H, E'. reflexivity.
  - now apply IH.
Qed.

(* ===================================================================== *)
(** * Writing the records out and reading them back                     *)
(* ===================================================================== *)

Section RoundTrip.

Local Open Scope N_scope.

Lemma skip_ws_newline_indent level s :
  skip_ws (newline_indent level ++ s) = skip_ws s.
Proof.
  unfold newline_indent. cbn [app skip_ws is_ws N.eqb orb].
  simpl. induction (level + (level + 0))%nat as [|n IH]; simpl; auto.
Qed.

Lemma N_below_32 c : c < 32 -> In c (map N.of_nat (seq 0 32)).
Proof.
  intros H. apply in_map_iff. exists (N.to_nat c).
  split; [lia|]. apply in_seq. lia.
Qed.

Lemma scanstring_u4 h1 h2 h3 h4 uni s3 :
  hex4 h1 h2 h3 h4 = Some uni ->
  is_high_surrogate uni = false ->
  scanstring (92 :: 117 :: h1 :: h2 :: h3 :: h4 :: s3) = prepend uni (scanstring s3).
Proof.
  intros H4 Hh. cbn [scanstring]. cbn [N.eqb Pos.eqb]. rewrite H4.
  destruct s3 as [|b [|u [|l1 [|l2 [|l3 [|l4 s4]]]]]]; try reflexivity.
  rewrite Hh. reflexivity.
Qed.

Lemma scanstring_escape_char c tail :
  scanstring (escape_char c ++ tail) = prepend c (scanstring tail).
Proof.
  destruct (N.lt_ge_cases c 32) as [H|H].
  - apply N_below_32 in H. simpl in H.
    repeat (destruct H as [<-|H];
            [first [reflexivity | apply scanstring_u4; reflexivity]|]).
    contradiction.
  - unfold escape_char.
    destruct (c =? 34) eqn:E1; [apply N.eqb_eq in E1; subst; reflexivity|].
    destruct (c =? 92) eqn:E2; [apply N.eqb_eq in E2; subst; reflexivity|].
    assert (E3 : (c <? 32) = false) by (apply N.ltb_ge; exact H).
    assert (E4 : (c =? 10) = false) by (apply N.eqb_neq; lia).
    assert (E5 : (c =? 13) = false) by (apply N.eqb_neq; lia).
    assert (E6 : (c =? 9) = false) by (apply N.eqb_neq; lia).
    assert (E7 : (c =? 8) = false) by (apply N.eqb_neq; lia).
    assert (E8 : (c =? 12) = false) by (apply N.eqb_neq; lia).
    rewrite E4, E5, E6, E7, E8, E3. cbn [app scanstring].
    rewrite E1, E2, E3. reflexivity.
Qed.

Lemma scanstring_escape s : forall rest,
  scanstring (flat_map escape_char s ++ 34 :: rest) = Some (s, rest).
Proof.
  induction s as [|c s IH]; intros rest.
  - reflexivity.
  - cbn [flat_map]. rewrite <- app_assoc, scanstring_escape_char, IH.
    reflexivity.
Qed.

Lemma value_ind (P : value -> Prop) :
  P JNull ->
  (forall b, P (JBool b)) ->
  (forall s, P (JStr s)) ->
  (forall xs, Forall P xs -> P (JArr xs)) ->
  (forall kvs, Forall (fun kv => P (snd kv)) kvs -> P (JObj kvs)) ->
  forall v, P v.
Proof.
  intros HN HB HS HA HO.
  fix IH 1. intros [|b|s|xs|kvs].
  - apply HN.
  - apply HB.
  - apply HS.
  - apply HA. induction xs as [|x xs IHxs]; constructor; [apply IH|exact IHxs].
  - apply HO. induction kvs as [|kv kvs IHkvs]; constructor;
      [apply IH|exact IHkvs].
Qed.

(** The text of a value starts with a character that is neither white
    space nor a closing bracket. *)
Lemma encode_head level v :
  exists c t, encode level v = c :: t /\ is_ws c = false /\ (c =? 93) = false.
Proof.
  destruct v as [|[|]|s|[|x xs]|[|kv kvs]]; simpl; eexists; eexists;
    (split; [reflexivity|split; reflexivity]).
Qed.

Lemma skip_ws_encode level v rest :
  skip_ws (encode level v ++ rest) = encode level v ++ rest.
Proof.
  destruct (encode_head level v) as (c & t & -> & W & _).
  simpl. rewrite W. reflexivity.
Qed.

Lemma scan_once_string f s rest :
  scan_once (S f) (encode_basestring s ++ rest) = Some (JStr s, rest).
Proof.
  unfold encode_basestring. cbn [app scan_once]. cbn [N.eqb Pos.eqb].
  rewrite <- app_assoc. cbn [app]. rewrite scanstring_escape. reflexivity.
Qed.

Lemma encode_arr_cons level x xs :
  encode level (JArr (x :: xs))
  = 91 :: newline_indent (S level)
       ++ encode (S level) x ++ items_tail (S level) xs
       ++ newline_indent level ++ [93].
Proof. reflexivity. Qed.

Lemma encode_obj_cons level k v kvs :
  encode level (JObj ((k, v) :: kvs))
  = 123 :: newline_indent (S level)
        ++ (34 :: flat_map escape_char k ++ 34 :: 58 :: 32 :: encode (S level) v
               ++ members_tail (S level) kvs ++ newline_indent level ++ [125]).
Proof.
  cbn [encode fst snd]. unfold encode_basestring, members_tail.
  change (py "{") with [123]. change (py ": ") with [58; 32].
  change (py "}") with [125].
  cbn [app]. f_equal. f_equal. f_equal. rewrite <- !app_assoc. reflexivity.
Qed.

Lemma items_tail_cons level y ys :
  items_tail level (y :: ys)
  = 44 :: newline_indent level ++ encode level y ++ items_tail level ys.
Proof.
  unfold items_tail. cbn [flat_map]. change (py ",") with [44].
  cbn [app]. rewrite <- !app_assoc. reflexivity.
Qed.

Lemma members_tail_cons level k v kvs :
  members_tail level ((k, v) :: kvs)
  = 44 :: newline_indent level
       ++ (34 :: flat_map escape_char k ++ 34 :: 58 :: 32 :: encode level v
              ++ members_tail level kvs).
Proof.
  unfold members_tail, encode_basestring. cbn [flat_map fst snd].
  change (py ",") with [44]. change (py ": ") with [58; 32].
  cbn [app]. f_equal. rewrite <- !app_assoc. cbn [app]. f_equal. f_equal.
  rewrite <- !app_assoc. reflexivity.
Qed.

Lemma scan_once_arr f s1 :
  scan_once (S f) (91 :: s1)
  = match skip_ws s1 with
    | d :: s2 =>
      if d =? 93 then Some (JArr [], s2)
      else match scan_items f (d :: s2) with
           | Some (values, rest) => Some (JArr values, rest)
           | None => None
           end
    | [] => None
    end.
Proof. reflexivity. Qed.

Lemma scan_once_obj f s1 :
  scan_once (S f) (123 :: s1)
  = match skip_ws s1 with
    | d :: s2 =>
      if d =? 125 then Some (JObj [], s2)
      else if d =? 34 then
        match scan_members f s2 with
        | Some (pairs, rest) => Some (JObj (dict_of_pairs pairs), rest)
        | None => None
        end
      else None
    | [] => None
    end.
Proof. reflexivity. Qed.

Lemma scan_items_step f s :
  scan_items (S f) s
  = match scan_once f s with
    | None => None
    | Some (v, r) =>
      match skip_ws r with
      | d :: r1 =>
        if d =? 93 then Some ([v], r1)
        else if d =? 44 then
          match scan_items f (skip_ws r1) with
          | Some (vs, rest) => Some (v :: vs, rest)
          | None => None
          end
        else None
      | [] => None
      end
    end.
Proof. reflexivity. Qed.

Lemma scan_members_step f s :
  scan_members (S f) s
  = match scanstring s with
    | None => None
    | Some (key, r) =>
      match skip_ws r with
      | colon :: r1 =>
        if colon =? 58 then
          match scan_once f (skip_ws r1) with
          | None => None
          | Some (v, r2) =>
            match skip_ws r2 with
            | d :: r3 =>
              if d =? 125 then Some ([(key, v)], r3)
              else if d =? 44 then
                match skip_ws r3 with
                | q :: r4 =>
                  if q =? 34 then
                    match scan_members f r4 with
                    | Some (kvs, rest) => Some ((key, v) :: kvs, rest)
                    | None => None
                    end
                  else None
                | [] => None
                end
              else None
            | [] => None
            end
          end
        else None
      | [] => None
      end
    end.
Proof. reflexivity. Qed.

Lemma encode_length_pos level v : (1 <= List.length (encode level v))%nat.
Proof.
  destruct (encode_head level v) as (c & t & -> & _). simpl. lia.
Qed.

Lemma scan_items_encode level close xs : forall x fuel rest,
  Forall reads_back (x :: xs) ->
  (List.length (encode level x ++ items_tail level xs) < fuel)%nat ->
  scan_items fuel (encode level x ++ items_tail level xs
                   ++ newline_indent close ++ 93 :: rest)
  = Some (x :: xs, rest).
Proof.
  induction xs as [|y ys IH]; intros x fuel rest F B;
    inversion F as [|? ? Hx Hxs]; subst;
    (destruct fuel as [|f]; [lia|]); rewrite scan_items_step;
    rewrite length_app in B.
  - rewrite (Hx level f) by (simpl in B; lia).
    cbn [items_tail flat_map app]. rewrite skip_ws_newline_indent.
    reflexivity.
  - rewrite (Hx level f) by lia.
    rewrite items_tail_cons in *. cbn [app skip_ws is_ws N.eqb Pos.eqb orb].
    cbn [N.eqb Pos.eqb]. rewrite <- !app_assoc.
    rewrite skip_ws_newline_indent, skip_ws_encode.
    rewrite IH; [reflexivity|exact Hxs|].
    cbn [List.length] in B. rewrite !length_app in B. rewrite length_app. lia.
Qed.

Lemma scan_members_encode level close kvs : forall k v fuel rest,
  Forall (fun kv => reads_back (snd kv)) ((k, v) :: kvs) ->
  (List.length (encode level v ++ members_tail level kvs) < fuel)%nat ->
  scan_members fuel (flat_map escape_char k ++ 34 :: 58 :: 32 :: encode level v
                     ++ members_tail level kvs
                     ++ newline_indent close ++ 125 :: rest)
  = Some ((k, v) :: kvs, rest).
Proof.
  induction kvs as [|[k' v'] kvs IH]; intros k v fuel rest F B;
    inversion F as [|? ? Hv Hkvs]; subst; cbn [snd] in Hv;
    (destruct fuel as [|f]; [lia|]); rewrite scan_members_step;
    rewrite scanstring_escape; cbn [skip_ws is_ws N.eqb Pos.eqb orb];
    cbn [N.eqb Pos.eqb]; rewrite skip_ws_encode; rewrite length_app in B.
  - rewrite (Hv level f) by (simpl in B; lia).
    cbn [members_tail flat_map app]. rewrite skip_ws_newline_indent.
    reflexivity.
  - rewrite (Hv level f) by lia.
    rewrite members_tail_cons in *. cbn [app skip_ws is_ws N.eqb Pos.eqb orb].
    cbn [N.eqb Pos.eqb]. rewrite <- !app_assoc.
    rewrite skip_ws_newline_indent. cbn [app skip_ws is_ws N.eqb Pos.eqb orb].
    cbn [N.eqb Pos.eqb].
    rewrite <- !app_assoc. cbn [app]. rewrite <- !app_assoc.
    rewrite IH; [reflexivity|exact Hkvs|].
    repeat (first [rewrite length_app in B | progress cbn [List.length] in B]).
    rewrite length_app. lia.
Qed.

Lemma dict_set_fresh d k v :
  ~ In k (map fst d) -> dict_set d k v = d ++ [(k, v)].
Proof.
  induction d as [|[k' v'] d IH]; intros H; simpl; [reflexivity|].
  simpl in H. destruct (pystr_eqb k' k) eqn:E.
  - apply pystr_eqb_eq in E. tauto.
  - rewrite IH by tauto. reflexivity.
Qed.

Lemma dict_of_pairs_from kvs : forall d,
  NoDup (map fst (d ++ kvs)) ->
  fold_left (fun d kv => dict_set d (fst kv) (snd kv)) kvs d = d ++ kvs.
Proof.
  induction kvs as [|[k v] kvs IH]; intros d H; simpl.
  - now rewrite app_nil_r.
  - rewrite dict_set_fresh.
    + rewrite IH; rewrite <- app_assoc; [reflexivity|exact H].
    + rewrite map_app in H. simpl in H. apply NoDup_remove_2 in H.
      intros Hin. apply H. apply in_or_app. left. exact Hin.
Qed.

Lemma dict_of_pairs_id kvs : NoDup (map fst kvs) -> dict_of_pairs kvs = kvs.
Proof. intros H. unfold dict_of_pairs. now rewrite dict_of_pairs_from. Qed.

Lemma valid_reads_back v : valid v -> reads_back v.
Proof.
  induction v as [|b|s|xs IH|kvs IH] using value_ind; intros V level fuel rest B.
  - destruct fuel as [|f]; [simpl in B; lia|]. reflexivity.
  - destruct fuel as [|f]; [destruct b; simpl in B; lia|].
    destruct b; reflexivity.
  - destruct fuel as [|f]; [simpl in B; lia|]. apply scan_once_string.
  - inversion V as [| | |? Vxs|]; subst.
    assert (F : Forall reads_back xs).
    { rewrite Forall_forall in *. intros x Hx. apply IH; auto. }
    destruct fuel as [|f]; [destruct xs; simpl in B; lia|].
    destruct xs as [|x xs]; [reflexivity|].
    rewrite encode_arr_cons in *. cbn [app]. rewrite scan_once_arr.
    rewrite <- !app_assoc. rewrite skip_ws_newline_indent, skip_ws_encode.
    destruct (encode_head (S level) x) as (c & t & E & _ & C).
    assert (S' : scan_items f (encode (S level) x ++ items_tail (S level) xs
                               ++ newline_indent level ++ 93 :: rest)
                 = Some (x :: xs, rest)).
    { apply scan_items_encode; [exact F|].
      cbn [List.length] in B. rewrite !length_app in B. rewrite length_app.
      cbn [List.length] in B. lia. }
    change ([93] ++ rest) with (93 :: rest).
    rewrite E in S' |- *. cbn [app] in S' |- *. rewrite C, S'. reflexivity.
  - inversion V as [| | | |? Nk Vkvs]; subst.
    assert (F : Forall (fun kv => reads_back (snd kv)) kvs).
    { rewrite Forall_forall in *. intros kv Hkv. apply IH; auto. }
    destruct fuel as [|f]; [destruct kvs; simpl in B; lia|].
    destruct kvs as [|[k v] kvs]; [reflexivity|].
    rewrite encode_obj_cons in *. cbn [app]. rewrite scan_once_obj.
    rewrite <- app_assoc, skip_ws_newline_indent.
    cbn [app skip_ws is_ws N.eqb Pos.eqb orb]. cbn [N.eqb Pos.eqb].
    rewrite <- !app_assoc. cbn [app]. rewrite <- !app_assoc. cbn [app].
    rewrite scan_members_encode; [|exact F|].
    + rewrite dict_of_pairs_id by exact Nk. reflexivity.
    + repeat (first [rewrite length_app in B | progress cbn [List.length] in B]).
      rewrite length_app. lia.
Qed.

(** Reading back what was written gives the value that was written. *)
Lemma loads_dumps v : valid v -> loads (dumps v) = Some v.
Proof.
  intros V. unfold loads, dumps.
  rewrite <- (app_nil_r (encode 0 v)) at 2. rewrite skip_ws_encode.
  rewrite (valid_reads_back v V 0%nat); [reflexivity|lia].
Qed.

End RoundTrip.

Lemma asdict_valid (service : FetchCalendar.ChurchService) :
  valid (FetchCalendar.asdict service).
Proof.
  unfold FetchCalendar.asdict. apply valid_obj.
  - vm_compute.
    repeat (constructor; [simpl; intuition discriminate|]). constructor.
  - repeat constructor; cbn [snd];
      try (unfold FetchCalendar.optional;
           match goal with |- valid (match ?o with _ => _ end) => destruct o end;
           constructor).
Qed.

Lemma optional_inj a b :
  FetchCalendar.optional a = FetchCalendar.optional b -> a = b.
Proof. destruct a, b; simpl; congruence. Qed.

Lemma asdict_inj r1 r2 :
  FetchCalendar.asdict r1 = FetchCalendar.asdict r2 -> r1 = r2.
Proof.
  destruct r1, r2. unfold FetchCalendar.asdict. simpl. intros H.
  injection H as Hd Hw Hs Hl Ht Ho Hn.
  apply optional_inj in Hl, Ht, Ho, Hn. congruence.
Qed.

Lemma map_asdict_inj l1 : forall l2,
  map FetchCalendar.asdict l1 = map FetchCalendar.asdict l2 -> l1 = l2.
Proof.
  induction l1 as [|r1 l1 IH]; intros [|r2 l2] H; cbn [map] in H;
    try discriminate; [reflexivity|].
  pose proof (f_equal (hd JNull) H) as Hr. pose proof (f_equal (@tl _) H) as Hl.
  cbn [hd tl] in Hr, Hl. apply asdict_inj in Hr. apply IH in Hl. congruence.
Qed.

(* ===================================================================== *)
(** * The claims                                                        *)
(* ===================================================================== *)

(** C1. A page whose calendar section has exactly one entry, with meta text
    "2026-02-20 | Fredag", a heading with text "Aftonsång", and a detail
    block that holds only the bold label "Tid:" followed by the text
    "18:00", yields exactly one record: that date, that weekday, that
    service name, time "18:00", and location, occasion and notes unset. *)
Theorem aftonsang_record (U : unicode_db)
        (soup calendar item meta content h3 details_div : node) :
  find (py "section") (Some (py "calendar")) soup = Some calendar ->
  find_all (py "div") (Some (py "calendar-item")) calendar = [item] ->
  find (py "div") (Some (py "meta")) item = Some meta ->
  get_text meta = py "2026-02-20 | Fredag" ->
  find (py "div") (Some (py "calendar-item-content")) item = Some content ->
  find (py "h3") None content = Some h3 ->
  get_text h3 = py "Aftonsång" ->
  find (py "div") None content = Some details_div ->
  contents_of details_div = Examples.aftonsang_details ->
  FetchCalendar.fetch_calendar U soup
  = [ {| FetchCalendar.date := py "2026-02-20";
         FetchCalendar.day_of_week := py "Fredag";
         FetchCalendar.service_name := py "Aftonsång";
         FetchCalendar.location := None;
         FetchCalendar.time := Some (py "18:00");
         FetchCalendar.occasion := None;
         FetchCalendar.notes := None |} ].
Proof.
  intros Hcal Hitems Hmeta Htext Hcontent Hh3 Hname Hdiv Hdetails.
  rewrite fetch_calendar_emitted, Hcal, Hitems.
  unfold emitted. cbn [flat_map]. rewrite app_nil_r.
  unfold FetchCalendar.scan_item.
  rewrite Hmeta, Htext, Hcontent, Hh3, Hname, Hdiv.
  pose proof (find_name _ _ _ _ Hdiv) as Hdivname.
  unfold FetchCalendar.scan_details, decode_contents, find, find_all,
    descendants.
  rewrite Hdetails, Hdivname. vm_compute. reflexivity.
Qed.

Lemma aftonsang_record_witness :
  FetchCalendar.fetch_calendar latin1_db Examples.aftonsang_page
  = [ {| FetchCalendar.date := py "2026-02-20";
         FetchCalendar.day_of_week := py "Fredag";
         FetchCalendar.service_name := py "Aftonsång";
         FetchCalendar.location := None;
         FetchCalendar.time := Some (py "18:00");
         FetchCalendar.occasion := None;
         FetchCalendar.notes := None |} ].
Proof.
  apply (aftonsang_record latin1_db Examples.aftonsang_page
           (Examples.section_calendar
              [Examples.entry "2026-02-20 | Fredag"
                 [Examples.tag "h3" [Text (py "Aftonsång")];
                  Examples.tag "div" Examples.aftonsang_details]])
           (Examples.entry "2026-02-20 | Fredag"
              [Examples.tag "h3" [Text (py "Aftonsång")];
               Examples.tag "div" Examples.aftonsang_details])
           (Examples.div_class "meta" [Text (py "2026-02-20 | Fredag")])
           (Examples.div_class "calendar-item-content"
              [Examples.tag "h3" [Text (py "Aftonsång")];
               Examples.tag "div" Examples.aftonsang_details])
           (Examples.tag "h3" [Text (py "Aftonsång")])
           (Examples.tag "div" Examples.aftonsang_details));
    reflexivity.
Defined.

(** C2. The occasion of a record is decided by the first strong element of
    the detail block alone.  When the text of that element is exactly
    "Plats:" or exactly "Tid:", the occasion is unset, whatever bold text
    comes later in the block; an occasion that is set is the text of that
    first strong element, which is then neither of the two labels; and two
    entries whose first strong elements have the same text (or which both
    have none) get the same occasion. *)
Theorem occasion_from_first_strong (U : unicode_db) (item : node)
        (r : FetchCalendar.ChurchService) :
  FetchCalendar.scan_item U item = Some r ->
  (forall s,
     first_strong item = Some s ->
     get_text s = py "Plats:" \/ get_text s = py "Tid:" ->
     FetchCalendar.occasion r = None)
  /\ (forall o,
        FetchCalendar.occasion r = Some o ->
        exists s,
          first_strong item = Some s /\ get_text s = o
          /\ o <> py "Plats:" /\ o <> py "Tid:")
  /\ (forall item' r',
        FetchCalendar.scan_item U item' = Some r' ->
        option_map get_text (first_strong item)
        = option_map get_text (first_strong item') ->
        FetchCalendar.occasion r = FetchCalendar.occasion r').
Proof.
  intros H. pose proof (scan_item_occasion U item r H) as E.
  split; [|split].
  - intros s Hs Ht. rewrite E, Hs. cbn [option_map occasion_of].
    destruct Ht as [-> | ->]; reflexivity.
  - intros o Ho. rewrite E in Ho.
    destruct (first_strong item) as [s|]; [|discriminate].
    cbn [option_map occasion_of] in Ho.
    destruct (truthy (get_text s)
              && negb (existsb (pystr_eqb (get_text s))
                               [py "Plats:"; py "Tid:"])) eqn:B;
      [|discriminate].
    injection Ho as <-. exists s. split; [reflexivity|]. split; [reflexivity|].
    apply andb_true_iff in B as [_ B]. apply negb_true_iff in B.
    split; intros Heq; rewrite Heq in B; discriminate.
  - intros item' r' H' Hsame.
    rewrite E, (scan_item_occasion U item' r' H'), Hsame. reflexivity.
Qed.

Lemma occasion_from_first_strong_witness :
  first_strong Examples.plats_first_item
  = Some (Examples.tag "strong" [Text (py "Plats:")])
  /\ map FetchCalendar.occasion
         (match FetchCalendar.scan_item latin1_db Examples.plats_first_item with
          | Some r => [r]
          | None => []
          end) = [None].
Proof.
  split; [reflexivity|].
  destruct (FetchCalendar.scan_item latin1_db Examples.plats_first_item)
    as [r|] eqn:E; [|vm_compute in E; discriminate].
  destruct (occasion_from_first_strong latin1_db Examples.plats_first_item r E)
    as [H _].
  simpl. f_equal.
  apply (H (Examples.tag "strong" [Text (py "Plats:")])).
  - reflexivity.
  - left. reflexivity.
Defined.

(** C3: a heading that is present but empty gives a record whose service
    name is the empty string, where the claim asks for a name that is never
    empty.  The sentinel "Unknown" is stored only when the content block has
    no h3 element at all; with one, the name is the stripped text of the
    first of them, whatever it is. *)
Theorem empty_heading_stored :
  map FetchCalendar.service_name
      (FetchCalendar.fetch_calendar latin1_db Examples.empty_heading_page)
  = [[]]
  /\ (forall U item r,
        FetchCalendar.scan_item U item = Some r ->
        exists content,
          find (py "div") (Some (py "calendar-item-content")) item
          = Some content
          /\ (find (py "h3") None content = None ->
              FetchCalendar.service_name r = py "Unknown")
          /\ (forall h3,
                find (py "h3") None content = Some h3 ->
                FetchCalendar.service_name r = get_text h3)).
Proof.
  split; [vm_compute; reflexivity|].
  intros U item r H. apply scan_item_fields in H as (content & Hc & Hn & _).
  exists content. split; [exact Hc|]. split.
  - intros Hh. rewrite Hh in Hn. exact Hn.
  - intros h3 Hh. rewrite Hh in Hn. exact Hn.
Qed.

(** C4: the place label followed by white space and then markup gives a
    record whose location is the empty string, not an unset one (the same
    holds for the time label); occasion and notes, which the code tests
    before it stores them, are never the empty string. *)
Theorem blank_location_stored :
  map FetchCalendar.location
      (FetchCalendar.fetch_calendar latin1_db Examples.blank_location_page)
  = [Some []]
  /\ (forall U soup r,
        In r (FetchCalendar.fetch_calendar U soup) ->
        FetchCalendar.occasion r <> Some []
        /\ FetchCalendar.notes r <> Some []).
Proof.
  split; [vm_compute; reflexivity|].
  intros U soup r H. apply fetch_calendar_In in H as [item H].
  apply scan_item_fields in H as (content & _ & _ & Hd).
  destruct (find (py "div") None content) as [details_div|].
  - destruct Hd as (_ & _ & -> & ->). split.
    + unfold FetchCalendar.scan_details. cbn [FetchCalendar.d_occasion].
      destruct (find (py "strong") None details_div) as [s|]; [|discriminate].
      destruct (get_text s); simpl; [discriminate|].
      match goal with |- (if ?b then _ else _) <> _ => destruct b end;
        discriminate.
    + unfold FetchCalendar.scan_details. cbn [FetchCalendar.d_notes].
      pose proof (notes_loop_nonempty
                    (find_all (py "p") None details_div) [] (Forall_nil _)) as F.
      destruct (fold_left _ _ _) as [|p ns]; [discriminate|].
      inversion F as [|? ? Hp _]. intros Heq. injection Heq as Heq.
      exact (join_nonempty (py (String "010" "")) p ns Hp Heq).
  - destruct Hd as (_ & _ & -> & ->). split; discriminate.
Qed.

(** C5. An entry whose meta text has no date line (four digits, two digits
    and two digits joined by dashes, then a bar with optional white space
    around it, then a word) gives no record and the loop goes on without it;
    hence extraction never returns more records than the page has
    calendar-item blocks, be it below the calendar section or in the whole
    page. *)
Theorem undated_entry_dropped (U : unicode_db) :
  (forall item meta,
     find (py "div") (Some (py "meta")) item = Some meta ->
     ~ has_date_line U (get_text meta) ->
     FetchCalendar.scan_item U item = None
     /\ forall rest services,
          FetchCalendar.scan_items U (item :: rest) services
          = FetchCalendar.scan_items U rest services)
  /\ (forall soup calendar,
        find (py "section") (Some (py "calendar")) soup = Some calendar ->
        List.length (FetchCalendar.fetch_calendar U soup)
        <= List.length (find_all (py "div") (Some (py "calendar-item")) calendar))
  /\ (forall soup,
        List.length (FetchCalendar.fetch_calendar U soup)
        <= List.length (find_all (py "div") (Some (py "calendar-item")) soup)).
Proof.
  split; [|split].
  - intros item meta Hm Hd.
    assert (E : FetchCalendar.scan_item U item = None).
    { unfold FetchCalendar.scan_item. rewrite Hm.
      apply search_date_None in Hd. rewrite Hd. reflexivity. }
    split; [exact E|]. intros rest services. simpl. rewrite E. reflexivity.
  - intros soup calendar H. rewrite fetch_calendar_emitted, H.
    apply emitted_length.
  - intros soup. rewrite fetch_calendar_emitted.
    destruct (find (py "section") (Some (py "calendar")) soup) as [calendar|] eqn:H.
    + apply find_In in H as [H _].
      etransitivity; [apply emitted_length|].
      now apply find_all_length_le.
    + simpl. lia.
Qed.

Lemma undated_entry_dropped_witness :
  FetchCalendar.scan_item latin1_db Examples.undated_item = None
  /\ List.length (FetchCalendar.fetch_calendar latin1_db Examples.three_entries_page)
     <= List.length (find_all (py "div") (Some (py "calendar-item"))
                              Examples.three_entries_page).
Proof.
  destruct (undated_entry_dropped latin1_db) as (Hitem & _ & Hpage).
  split.
  - apply (Hitem Examples.undated_item
                 (Examples.div_class "meta" [Text (py "Fredag 20 februari")])).
    + reflexivity.
    + apply search_date_None. vm_compute. reflexivity.
  - apply Hpage.
Defined.

(** C6. When no section with class "calendar" is found, or the calendar
    section holds no calendar-item block, extraction returns the empty
    sequence (the model is a total function: nothing is raised). *)
Theorem no_calendar_no_services (U : unicode_db) (soup : node) :
  (find (py "section") (Some (py "calendar")) soup = None
   \/ exists calendar,
        find (py "section") (Some (py "calendar")) soup = Some calendar
        /\ find_all (py "div") (Some (py "calendar-item")) calendar = []) ->
  FetchCalendar.fetch_calendar U soup = [].
Proof.
  intros [H|(calendar & H & E)]; rewrite fetch_calendar_emitted, H.
  - reflexivity.
  - rewrite E. reflexivity.
Qed.

Lemma no_calendar_no_services_witness :
  FetchCalendar.fetch_calendar latin1_db Examples.no_calendar_page = []
  /\ FetchCalendar.fetch_calendar latin1_db Examples.empty_calendar_page = [].
Proof.
  split.
  - apply (no_calendar_no_services latin1_db Examples.no_calendar_page).
    left. reflexivity.
  - apply (no_calendar_no_services latin1_db Examples.empty_calendar_page).
    right. eexists. split; reflexivity.
Defined.

(** C7. The records pair off, in document order, with the well-formed
    entries of the calendar section (meta text with a date line, content
    block present): the k-th record is the one the k-th such entry gives, so
    a page with N well-formed entries yields exactly N records, in the order
    of their entries. *)
Theorem document_order_preserved (U : unicode_db) (soup calendar : node) :
  find (py "section") (Some (py "calendar")) soup = Some calendar ->
  Forall2 (fun item r => FetchCalendar.scan_item U item = Some r)
          (filter (well_formedb U)
                  (find_all (py "div") (Some (py "calendar-item")) calendar))
          (FetchCalendar.fetch_calendar U soup)
  /\ List.length (FetchCalendar.fetch_calendar U soup)
     = List.length (filter (well_formedb U)
                      (find_all (py "div") (Some (py "calendar-item")) calendar))
  /\ (forall item, well_formedb U item = true <-> well_formed U item)
  /\ (Forall (well_formed U)
             (find_all (py "div") (Some (py "calendar-item")) calendar) ->
      Forall2 (fun item r => FetchCalendar.scan_item U item = Some r)
              (find_all (py "div") (Some (py "calendar-item")) calendar)
              (FetchCalendar.fetch_calendar U soup)).
Proof.
  intros H. rewrite fetch_calendar_emitted, H.
  pose proof (emitted_well_formed U
                (find_all (py "div") (Some (py "calendar-item")) calendar)) as F.
  split; [exact F|]. split; [|split].
  - symmetry. exact (Forall2_length F).
  - apply well_formedb_iff.
  - intros W.
    replace (find_all (py "div") (Some (py "calendar-item")) calendar)
      with (filter (well_formedb U)
              (find_all (py "div") (Some (py "calendar-item")) calendar)) at 1;
      [exact F|].
    apply forallb_filter_id. apply forallb_forall. intros item Hin.
    apply well_formedb_iff. rewrite Forall_forall in W. now apply W.
Qed.

Lemma document_order_preserved_witness :
  find (py "section") (Some (py "calendar")) Examples.three_entries_page
  = Some Examples.three_entries_calendar
  /\ List.length (FetchCalendar.fetch_calendar latin1_db Examples.three_entries_page)
     = 2
  /\ map FetchCalendar.date
         (FetchCalendar.fetch_calendar latin1_db Examples.three_entries_page)
     = [py "2026-03-01"; py "2026-02-01"].
Proof.
  split; [reflexivity|].
  destruct (document_order_preserved latin1_db Examples.three_entries_page
              Examples.three_entries_calendar eq_refl) as (_ & L & _).
  split; [rewrite L|]; vm_compute; reflexivity.
Defined.

(** C8. The JSON text of a sequence of records (a list of dicts with the
    keys date, day_of_week, service_name, location, time, occasion, notes,
    an unset field written as null) reads back as the same list of dicts,
    in the same order; the dicts determine the records field for field; and
    whenever [main] writes the file, reading it gives the records back (it
    writes nothing when there are no services). *)
Theorem json_round_trip (services : list FetchCalendar.ChurchService) :
  loads (dumps (JArr (map FetchCalendar.asdict services)))
  = Some (JArr (map FetchCalendar.asdict services))
  /\ (forall others,
        map FetchCalendar.asdict others = map FetchCalendar.asdict services ->
        others = services)
  /\ match FetchCalendar.main services with
     | Some text =>
       PrintCalendar.load_services (Some text)
       = PrintCalendar.Services (JArr (map FetchCalendar.asdict services))
     | None => services = []
     end.
Proof.
  assert (R : loads (dumps (JArr (map FetchCalendar.asdict services)))
              = Some (JArr (map FetchCalendar.asdict services))).
  { apply loads_dumps. apply valid_arr. apply Forall_forall.
    intros v Hv. apply in_map_iff in Hv as (r & <- & _). apply asdict_valid. }
  split; [exact R|]. split.
  - intros others H. now apply map_asdict_inj.
  - unfold FetchCalendar.main, PrintCalendar.load_services.
    destruct services; [reflexivity|]. rewrite R. reflexivity.
Qed.

(** C9. On every page the extraction of fetch_calendar.py and the one of
    scrape_calendar.py return sequences that agree record by record, field
    by field (hence also in length and order). *)
Theorem fetch_calendar_copies_agree (U : unicode_db) (soup : node) :
  map fetch_fields (FetchCalendar.fetch_calendar U soup)
  = map scrape_fields (ScrapeCalendar.fetch_calendar U soup).
Proof.
  unfold FetchCalendar.fetch_calendar, ScrapeCalendar.fetch_calendar.
  destruct (find (py "section") (Some (py "calendar")) soup); [|reflexivity].
  now apply scan_items_copies.
Qed.

(** C10. An entry without a meta block, and an entry whose meta text has a
    date line but which has no content block, gives no record at all (so
    none with the sentinel service name), and the loop goes on with the next
    entry, the records collected so far untouched. *)
Theorem incomplete_entry_skipped (U : unicode_db) (item : node) :
  (find (py "div") (Some (py "meta")) item = None
   \/ exists meta,
        find (py "div") (Some (py "meta")) item = Some meta
        /\ has_date_line U (get_text meta)
        /\ find (py "div") (Some (py "calendar-item-content")) item = None) ->
  FetchCalendar.scan_item U item = None
  /\ forall rest services,
       FetchCalendar.scan_items U (item :: rest) services
       = FetchCalendar.scan_items U rest services.
Proof.
  intros H.
  assert (E : FetchCalendar.scan_item U item = None).
  { unfold FetchCalendar.scan_item.
    destruct H as [->|(meta & -> & D & ->)]; [reflexivity|].
    destruct (search U FetchCalendar.date_re (get_text meta)); reflexivity. }
  split; [exact E|]. intros rest services. simpl. rewrite E. reflexivity.
Qed.

Lemma incomplete_entry_skipped_witness :
  (FetchCalendar.scan_item latin1_db Examples.no_meta_item = None
   /\ forall rest services,
        FetchCalendar.scan_items latin1_db (Examples.no_meta_item :: rest) services
        = FetchCalendar.scan_items latin1_db rest services)
  /\ (FetchCalendar.scan_item latin1_db Examples.no_content_item = None
      /\ forall rest services,
           FetchCalendar.scan_items latin1_db (Examples.no_content_item :: rest) services
           = FetchCalendar.scan_items latin1_db rest services).
Proof.
  split.
  - apply (incomplete_entry_skipped latin1_db Examples.no_meta_item).
    left. reflexivity.
  - apply (incomplete_entry_skipped latin1_db Examples.no_content_item).
    right. exists (Examples.div_class "meta" [Text (py "2026-02-20 | Fredag")]).
    split; [reflexivity|]. split; [|reflexivity].
    exists [], (py "2026-02-20 | Fredag"), []. split; [reflexivity|].
    exact date_line_fredag.
Defined.

(* ===================================================================== *)
(** * Further properties of the extraction                                *)
(* ===================================================================== *)

Section Priority.

Variable U : unicode_db.

Lemma attempts_sound_groups r : forall s a,
  In a (attempts U r s) ->
  s = consumed a ++ remainder a /\ glang U r (consumed a) (groups a).
Proof.
  induction r as [k| |r1 IH1 r2 IH2|k|r IH]; intros s a H; simpl in H.
  - destruct s as [|c s]; [contradiction|].
    destruct (cls_matches U k c) eqn:E; [|contradiction].
    destruct H as [<-|[]]. simpl. eauto.
  - destruct H as [<-|[]]. simpl. auto.
  - apply in_flat_map in H as [a1 [H1 H2]].
    apply in_map_iff in H2 as [a2 [<- H2]].
    apply IH1 in H1 as [E1 L1]. apply IH2 in H2 as [E2 L2]. simpl.
    split.
    + rewrite <- app_assoc, <- E2. exact E1.
    + exists (consumed a1), (consumed a2), (groups a1), (groups a2). auto.
  - destruct (star_attempts_sound U k s a H) as [E F]. split; [exact E|].
    split; [exact F|].
    clear -H. revert a H. induction s as [|c s IH]; intros a H; simpl in H.
    + destruct H as [<-|[]]. reflexivity.
    + destruct (cls_matches U k c).
      * apply in_app_or in H as [H|[<-|[]]]; [|reflexivity].
        apply in_map_iff in H as [b [<- Hb]]. simpl. now apply IH.
      * destruct H as [<-|[]]. reflexivity.
  - apply in_map_iff in H as [b [<- Hb]]. apply IH in Hb as [E L].
    simpl. split; [exact E|]. eauto.
Qed.

Lemma glang_rlit s m g : glang U (rlit s) m g -> m = s /\ g = [].
Proof.
  revert m g. induction s as [|c s IH]; intros m g; simpl.
  - auto.
  - intros (m1 & m2 & g1 & g2 & -> & -> & ((d & -> & Hd) & ->) & H2).
    apply N.eqb_eq in Hd. subst d. apply IH in H2 as [-> ->]. auto.
Qed.

Lemma glang_rrep n k m g :
  glang U (rrep n k) m g ->
  List.length m = n /\ forallb (cls_matches U k) m = true /\ g = [].
Proof.
  revert m g. induction n as [|n IH]; intros m g; simpl.
  - intros [-> ->]. auto.
  - intros (m1 & m2 & g1 & g2 & -> & -> & ((d & -> & Hd) & ->) & H2).
    apply IH in H2 as (Hl & Hf & ->). simpl. rewrite Hd, Hf, Hl. auto.
Qed.

Lemma glang_rplus k m g :
  glang U (rplus k) m g ->
  m <> [] /\ forallb (cls_matches U k) m = true /\ g = [].
Proof.
  simpl. intros (m1 & m2 & g1 & g2 & -> & -> & ((d & -> & Hd) & ->) & (H2 & ->)).
  simpl. rewrite Hd, H2. repeat split. discriminate.
Qed.

(** The first attempt of a search is the one it returns. *)
Lemma search_hd r s a :
  hd_error (attempts U r s) = Some a -> search U r s = Some a.
Proof.
  intros H. destruct s; simpl; unfold re_match; rewrite H; reflexivity.
Qed.

(** A search skips the positions at which nothing matches. *)
Lemma search_skip r X : forall P,
  (forall P1 P2, P = P1 ++ P2 -> P2 <> [] -> attempts U r (P2 ++ X) = []) ->
  search U r (P ++ X) = search U r X.
Proof.
  induction P as [|c P IH]; intros H; [reflexivity|].
  assert (E : attempts U r (c :: P ++ X) = []).
  { apply (H [] (c :: P)); [reflexivity|discriminate]. }
  simpl. unfold re_match. rewrite E. simpl.
  apply IH. intros P1 P2 -> N. apply (H (c :: P1) P2); [reflexivity|exact N].
Qed.

(** What a successful search returns: the first attempt at the first
    position at which there is one. *)
Lemma search_first r : forall s a,
  search U r s = Some a ->
  exists pre,
    s = pre ++ consumed a ++ remainder a
    /\ hd_error (attempts U r (consumed a ++ remainder a)) = Some a
    /\ (forall P1 P2, pre = P1 ++ P2 -> P2 <> [] ->
          attempts U r (P2 ++ consumed a ++ remainder a) = []).
Proof.
  induction s as [|c s IH]; intros a H; simpl in H; unfold re_match in H.
  - destruct (attempts U r []) as [|b l] eqn:E; simpl in H; [discriminate|].
    injection H as ->. exists [].
    assert (Hin : In a (attempts U r [])) by (rewrite E; simpl; auto).
    destruct (attempts_sound U r _ _ Hin) as [Es _]. rewrite <- Es.
    split; [reflexivity|]. split; [rewrite E; reflexivity|].
    intros P1 P2 HP N. destruct P1, P2; try discriminate. contradiction.
  - destruct (attempts U r (c :: s)) as [|b l] eqn:E; simpl in H.
    + apply IH in H as (pre & Hs & Hhd & Hno). exists (c :: pre).
      split; [simpl; congruence|]. split; [exact Hhd|].
      intros P1 P2 HP N. destruct P1 as [|c' P1].
      * simpl in HP. subst P2. simpl. rewrite <- Hs. exact E.
      * injection HP as -> ->. now apply (Hno P1 P2).
    + injection H as ->. exists [].
      assert (Hin : In a (attempts U r (c :: s))) by (rewrite E; simpl; auto).
      destruct (attempts_sound U r _ _ Hin) as [Es _]. rewrite <- Es.
      split; [reflexivity|]. split; [rewrite E; reflexivity|].
      intros P1 P2 HP N. destruct P1, P2; try discriminate. contradiction.
Qed.

Lemma hd_error_app {A} (l1 l2 : list A) :
  hd_error (l1 ++ l2) = match l1 with [] => hd_error l2 | x :: _ => Some x end.
Proof. destruct l1; reflexivity. Qed.

Lemma hd_error_map {A B} (f : A -> B) l :
  hd_error (map f l) = option_map f (hd_error l).
Proof. destruct l; reflexivity. Qed.

Lemma attempts_seq r1 r2 s :
  attempts U (RSeq r1 r2) s
  = flat_map (fun a1 => map (combine a1) (attempts U r2 (remainder a1)))
             (attempts U r1 s).
Proof. reflexivity. Qed.

(** The first attempt of a sequence combines some attempt of its first part
    with the first attempt of the rest after it. *)
Lemma hd_seq r1 r2 s a :
  hd_error (attempts U (RSeq r1 r2) s) = Some a ->
  exists a1 a2,
    In a1 (attempts U r1 s)
    /\ hd_error (attempts U r2 (remainder a1)) = Some a2
    /\ a = combine a1 a2.
Proof.
  rewrite attempts_seq. induction (attempts U r1 s) as [|a1 l IH]; simpl;
    [discriminate|].
  rewrite hd_error_app.
  destruct (map (combine a1) (attempts U r2 (remainder a1))) as [|x t] eqn:E.
  - intros H. apply IH in H as (b1 & b2 & Hin & Hhd & Ha).
    exists b1, b2. split; [right; exact Hin|]. split; assumption.
  - intros [= <-]. destruct (attempts U r2 (remainder a1)) as [|a2 t'] eqn:E2;
      [discriminate|].
    simpl in E. injection E as <- _. exists a1, a2.
    split; [left; reflexivity|]. split; [rewrite E2|]; reflexivity.
Qed.

(** When the first part has a single attempt. *)
Lemma hd_seq_single r1 r2 s a1 a2 :
  attempts U r1 s = [a1] ->
  hd_error (attempts U r2 (remainder a1)) = Some a2 ->
  hd_error (attempts U (RSeq r1 r2) s) = Some (combine a1 a2).
Proof.
  intros H1 H2. rewrite attempts_seq, H1. simpl. rewrite app_nil_r.
  rewrite hd_error_map, H2. reflexivity.
Qed.

Lemma attempts_rlit l s :
  attempts U (rlit l) (l ++ s)
  = [{| consumed := l; groups := []; remainder := s |}].
Proof.
  induction l as [|c l IH]; [reflexivity|].
  change (rlit (c :: l)) with (RSeq (RCls (CChar c)) (rlit l)).
  rewrite attempts_seq. simpl. rewrite N.eqb_refl. simpl.
  rewrite IH. reflexivity.
Qed.

Lemma hd_seq_lit l r2 s a2 :
  hd_error (attempts U r2 s) = Some a2 ->
  hd_error (attempts U (RSeq (rlit l) r2) (l ++ s)) = Some (push l a2).
Proof.
  intros H. apply (hd_seq_single (rlit l) r2 (l ++ s) _ a2 (attempts_rlit l s)).
  exact H.
Qed.

(** A greedy repetition in front of a pattern: when a character of the
    class comes first, the attempts that take it come before those that do
    not. *)
Lemma attempts_star_cons k r2 c s :
  cls_matches U k c = true ->
  attempts U (RSeq (RStar k) r2) (c :: s)
  = map (push [c]) (attempts U (RSeq (RStar k) r2) s)
    ++ map (push []) (attempts U r2 (c :: s)).
Proof.
  intros Hc. rewrite !attempts_seq. simpl. rewrite Hc.
  rewrite flat_map_app. simpl. rewrite app_nil_r. f_equal.
  induction (star_attempts U k s) as [|a l IH]; [reflexivity|].
  simpl. rewrite map_app, IH. f_equal. rewrite map_map. simpl.
  apply map_ext. intros a2. reflexivity.
Qed.

Lemma attempts_star_stop k r2 s :
  stops (cls_matches U k) s ->
  attempts U (RSeq (RStar k) r2) s = map (push []) (attempts U r2 s).
Proof.
  intros H. rewrite attempts_seq. destruct s as [|c s]; simpl.
  - rewrite app_nil_r. reflexivity.
  - simpl in H. rewrite H. simpl. rewrite app_nil_r. reflexivity.
Qed.

(** White space in front of a pattern whose match starts with something
    else: the repetition takes all of it first. *)
Lemma hd_seq_star k r2 s a2 : forall w,
  forallb (cls_matches U k) w = true ->
  stops (cls_matches U k) s ->
  hd_error (attempts U r2 s) = Some a2 ->
  hd_error (attempts U (RSeq (RStar k) r2) (w ++ s)) = Some (push w a2).
Proof.
  induction w as [|c w IH]; intros Hw Hs H2.
  - cbn [app]. rewrite attempts_star_stop by exact Hs.
    rewrite hd_error_map, H2. reflexivity.
  - simpl in Hw. apply andb_true_iff in Hw as [Hc Hw].
    cbn [app]. rewrite attempts_star_cons by exact Hc.
    rewrite hd_error_app.
    specialize (IH Hw Hs H2).
    destruct (attempts U (RSeq (RStar k) r2) (w ++ s)) as [|x t];
      [discriminate|].
    simpl in IH. injection IH as ->. reflexivity.
Qed.

(** A greedy repetition goes as far as it can. *)
Lemma star_attempts_hd k : forall m s,
  forallb (cls_matches U k) m = true ->
  stops (cls_matches U k) s ->
  hd_error (star_attempts U k (m ++ s))
  = Some {| consumed := m; groups := []; remainder := s |}.
Proof.
  induction m as [|c m IH]; intros s Hm Hs; simpl.
  - destruct s as [|c s]; [reflexivity|]. simpl in Hs. simpl. rewrite Hs.
    reflexivity.
  - simpl in Hm. apply andb_true_iff in Hm as [Hc Hm]. rewrite Hc.
    rewrite hd_error_app. specialize (IH s Hm Hs).
    destruct (star_attempts U k (m ++ s)) as [|x t]; [discriminate|].
    simpl in IH. injection IH as ->. reflexivity.
Qed.

Lemma star_attempts_hd_stops k : forall s a,
  hd_error (star_attempts U k s) = Some a ->
  stops (cls_matches U k) (remainder a).
Proof.
  induction s as [|c s IH]; intros a H; simpl in H.
  - injection H as <-. exact I.
  - destruct (cls_matches U k c) eqn:Hc.
    + rewrite hd_error_app in H.
      destruct (star_attempts U k s) as [|x t] eqn:E.
      * pose proof (star_attempts_empty U k s) as Hin. rewrite E in Hin.
        contradiction.
      * simpl in H. injection H as <-. simpl. apply IH. reflexivity.
    + injection H as <-. simpl. exact Hc.
Qed.

End Priority.

Section LabelValue.

Variable U : unicode_db.

Lemma hd_seq_first r1 r2 s a1 a2 :
  hd_error (attempts U r1 s) = Some a1 ->
  hd_error (attempts U r2 (remainder a1)) = Some a2 ->
  hd_error (attempts U (RSeq r1 r2) s) = Some (combine a1 a2).
Proof.
  intros H1 H2. rewrite attempts_seq.
  destruct (attempts U r1 s) as [|x l]; [discriminate|].
  injection H1 as ->.
  destruct (attempts U r2 (remainder a1)) as [|y t] eqn:E; [discriminate|].
  injection H2 as ->. simpl. rewrite E. reflexivity.
Qed.

Lemma plus_hd k m s :
  m <> [] -> forallb (cls_matches U k) m = true ->
  stops (cls_matches U k) s ->
  hd_error (attempts U (rplus k) (m ++ s))
  = Some {| consumed := m; groups := []; remainder := s |}.
Proof.
  intros Hn Hm Hs. destruct m as [|c m]; [contradiction|].
  simpl in Hm. apply andb_true_iff in Hm as [Hc Hm].
  unfold rplus.
  rewrite (hd_seq_first (RCls k) (RStar k) ((c :: m) ++ s)
             {| consumed := [c]; groups := []; remainder := m ++ s |}
             {| consumed := m; groups := []; remainder := s |}).
  - reflexivity.
  - simpl. rewrite Hc. reflexivity.
  - simpl. now apply star_attempts_hd.
Qed.

Lemma plus_none k s :
  stops (cls_matches U k) s -> attempts U (rplus k) s = [].
Proof.
  intros Hs. destruct s as [|c s]; [reflexivity|].
  simpl in Hs. simpl. rewrite Hs. reflexivity.
Qed.

Lemma not_lt_not_space c : not_lt c = false -> is_space c = false.
Proof.
  unfold not_lt. intros H. apply negb_false_iff, N.eqb_eq in H. subst c.
  reflexivity.
Qed.

Lemma stops_lt_space s : stops not_lt s -> stops is_space s.
Proof. destruct s as [|c s]; simpl; [auto|apply not_lt_not_space]. Qed.

Lemma strip_space_cons c s : is_space c = true -> strip (c :: s) = strip s.
Proof. intros H. unfold strip. simpl. rewrite H. reflexivity. Qed.

Lemma group_value_hd m s :
  m <> [] -> forallb not_lt m = true -> stops not_lt s ->
  hd_error (attempts U (RSeq (RGroup (rplus (CNotChar 60%N))) REps) (m ++ s))
  = Some {| consumed := m ++ []; groups := [m]; remainder := s |}.
Proof.
  intros Hn Hm Hs.
  rewrite (hd_seq_first (RGroup (rplus (CNotChar 60%N))) REps (m ++ s)
             {| consumed := m; groups := [m]; remainder := s |}
             {| consumed := []; groups := []; remainder := s |}).
  - reflexivity.
  - cbn [attempts]. rewrite hd_error_map.
    rewrite (plus_hd (CNotChar 60%N) m s Hn Hm Hs). reflexivity.
  - reflexivity.
Qed.

Lemma group_value_none s :
  stops not_lt s ->
  attempts U (RSeq (RGroup (rplus (CNotChar 60%N))) REps) s = [].
Proof.
  intros Hs. rewrite attempts_seq. cbn [attempts].
  rewrite (plus_none (CNotChar 60%N) s Hs). reflexivity.
Qed.

(** After the closing tag of the label: the first attempt takes the text up
    to the next tag, and what it captures strips to the same string as that
    text. *)
Lemma value_first R : forall body,
  body <> [] -> forallb not_lt body = true -> stops not_lt R ->
  exists a,
    hd_error (attempts U value_re (body ++ R)) = Some a
    /\ remainder a = R
    /\ exists g, groups a = [g] /\ strip g = strip body.
Proof.
  unfold value_re.
  induction body as [|c b IH]; intros Hn Hb HR; [contradiction|].
  simpl in Hb. apply andb_true_iff in Hb as [Hc Hb].
  destruct (is_space c) eqn:Sc.
  - cbn [app]. rewrite attempts_star_cons by exact Sc.
    rewrite hd_error_app. destruct b as [|c' b'].
    + cbn [app]. rewrite attempts_star_stop by now apply stops_lt_space.
      rewrite group_value_none by exact HR. cbn [map].
      rewrite hd_error_map.
      change (c :: R) with ([c] ++ R).
      rewrite (group_value_hd [c] R) by
          (try discriminate; try assumption; simpl; rewrite Hc; reflexivity).
      eexists. split; [reflexivity|]. simpl. split; [reflexivity|].
      eexists. split; reflexivity.
    + destruct (IH ltac:(discriminate) Hb HR) as (a & Ha & Ra & g & Ga & Sg).
      destruct (attempts U (RSeq (RStar CSpace)
                   (RSeq (RGroup (rplus (CNotChar 60%N))) REps))
                   ((c' :: b') ++ R)) as [|x t]; [discriminate|].
      injection Ha as ->. exists (push [c] a). cbn [map].
      split; [reflexivity|]. split; [exact Ra|].
      exists g. split; [exact Ga|]. rewrite Sg.
      symmetry. now apply strip_space_cons.
  - rewrite attempts_star_stop by (simpl; exact Sc).
    rewrite hd_error_map.
    rewrite (group_value_hd (c :: b) R) by
        (try discriminate; try assumption; simpl; rewrite Hc, Hb; reflexivity).
    eexists. split; [reflexivity|]. simpl. split; [reflexivity|].
    eexists. split; reflexivity.
Qed.

Lemma label_re_unfold label :
  FetchCalendar.label_re label
  = RSeq (rlit (py "<strong>"))
      (RSeq (RStar CSpace)
         (RSeq (rlit label)
            (RSeq (RStar CSpace)
               (RSeq (rlit (py "</strong>")) value_re)))).
Proof. reflexivity. Qed.

(** The label at the start of a text: the first attempt captures the text
    that follows it. *)
Lemma label_first label ws1 ws2 body R :
  label <> [] -> stops is_space label ->
  forallb is_space ws1 = true -> forallb is_space ws2 = true ->
  body <> [] -> forallb not_lt body = true -> stops not_lt R ->
  exists a,
    hd_error (attempts U (FetchCalendar.label_re label)
                (py "<strong>" ++ ws1 ++ label ++ ws2 ++ py "</strong>"
                 ++ body ++ R)) = Some a
    /\ remainder a = R
    /\ exists g, groups a = [g] /\ strip g = strip body.
Proof.
  intros Hne Hl H1 H2 Hn Hb HR.
  destruct (value_first R body Hn Hb HR) as (a & Ha & Ra & g & Ga & Sg).
  exists (push (py "<strong>")
            (push ws1 (push label (push ws2 (push (py "</strong>") a))))).
  split; [|split; [exact Ra|exists g; split; [exact Ga|exact Sg]]].
  rewrite label_re_unfold.
  apply hd_seq_lit. apply hd_seq_star; [exact H1| |].
  { destruct label as [|l0 l]; [contradiction|exact Hl]. }
  apply hd_seq_lit. apply hd_seq_star; [exact H2|reflexivity|].
  apply hd_seq_lit. exact Ha.
Qed.

(** Where two readings of one text meet a character that the first part of
    one reading cannot contain. *)
Lemma boundary c (A : pystr) : forall P X B,
  ~ In c A -> P ++ c :: X = A ++ B ->
  exists P3, P = A ++ P3 /\ P3 ++ c :: X = B.
Proof.
  induction A as [|a A IH]; intros P X B Hc E.
  - exists P. auto.
  - destruct P as [|p P].
    + simpl in E. injection E as <- _. exfalso. apply Hc. left. reflexivity.
    + simpl in E. injection E as -> E.
      destruct (IH P X B) as (P3 & -> & E3); [|exact E|].
      * intros Hin. apply Hc. right. exact Hin.
      * exists P3. auto.
Qed.

Lemma boundary_cons c a0 (A : pystr) P X B :
  P <> [] -> ~ In c A -> P ++ c :: X = (a0 :: A) ++ B ->
  exists P3, P = (a0 :: A) ++ P3 /\ P3 ++ c :: X = B.
Proof.
  intros Hn Hc E. destruct P as [|p P]; [contradiction|].
  simpl in E. injection E as -> E.
  apply boundary in E as (P3 & -> & E3); [|exact Hc].
  exists P3. auto.
Qed.

Lemma lang_label_re_prefix label m :
  lang U (FetchCalendar.label_re label) m ->
  exists ws1 rest,
    m = py "<strong>" ++ ws1 ++ label ++ rest
    /\ forallb is_space ws1 = true.
Proof.
  rewrite label_re_unfold. cbn [lang].
  intros (m1 & r1 & -> & H1 & ws1 & r2 & -> & Hw & l & r3 & -> & Hl & _).
  apply lang_rlit in H1, Hl. subst m1 l. exists ws1, r3. auto.
Qed.

(** No match of a label pattern starts before the label's first
    occurrence. *)
Lemma no_match_before label P X :
  ~ occurs_in label P -> ~ In 60%N label ->
  forall P1 P2, P = P1 ++ P2 -> P2 <> [] ->
    attempts U (FetchCalendar.label_re label) (P2 ++ 60%N :: X) = [].
Proof.
  intros Hno Hlt P1 P2 -> Hn.
  destruct (attempts U (FetchCalendar.label_re label) (P2 ++ 60%N :: X))
    as [|a l] eqn:E; [reflexivity|]. exfalso.
  assert (Hin : In a (attempts U (FetchCalendar.label_re label)
                        (P2 ++ 60%N :: X))) by (rewrite E; simpl; auto).
  apply attempts_sound in Hin as [Es L].
  apply lang_label_re_prefix in L as (ws1 & rest & Em & Hw).
  rewrite Em in Es.
  assert (Es' : P2 ++ 60%N :: X
                = (60%N :: (py "strong>" ++ ws1))
                    ++ (label ++ rest ++ remainder a)).
  { rewrite Es. rewrite <- !app_assoc. reflexivity. }
  apply boundary_cons in Es' as (P3 & -> & E3); [|exact Hn|].
  - apply boundary in E3 as (P4 & -> & _); [|exact Hlt].
    apply Hno. exists (P1 ++ 60%N :: py "strong>" ++ ws1), P4.
    rewrite <- !app_assoc. reflexivity.
  - intros Hin. apply in_app_or in Hin as [Hin|Hin].
    + simpl in Hin. intuition discriminate.
    + rewrite forallb_forall in Hw. apply Hw in Hin. discriminate.
Qed.

(** The value a label pattern finds: the label's first occurrence decides. *)
Lemma search_label label P ws1 ws2 body R :
  ~ occurs_in label P -> ~ In 60%N label ->
  label <> [] -> stops is_space label ->
  forallb is_space ws1 = true -> forallb is_space ws2 = true ->
  body <> [] -> forallb not_lt body = true -> stops not_lt R ->
  exists a,
    search U (FetchCalendar.label_re label)
           (P ++ py "<strong>" ++ ws1 ++ label ++ ws2 ++ py "</strong>"
            ++ body ++ R) = Some a
    /\ strip (group 1 a) = strip body.
Proof.
  intros Hno Hlt Hne Hl H1 H2 Hn Hb HR.
  destruct (label_first label ws1 ws2 body R Hne Hl H1 H2 Hn Hb HR)
    as (a & Ha & _ & g & Ga & Sg).
  exists a. split.
  - rewrite search_skip.
    + now apply search_hd.
    + change (py "<strong>") with (60%N :: py "strong>"). cbn [app].
      now apply no_match_before.
  - unfold group. rewrite Ga. exact Sg.
Qed.

End LabelValue.

Section Markup.

Local Open Scope N_scope.

Lemma prefixb_app l : forall s, prefixb l s = true -> exists b, s = l ++ b.
Proof.
  induction l as [|a l IH]; intros s H.
  - exists s. reflexivity.
  - destruct s as [|c s]; [discriminate|]. simpl in H.
    apply andb_true_iff in H as [E H]. apply N.eqb_eq in E. subst c.
    destruct (IH s H) as [b ->]. exists b. reflexivity.
Qed.

Lemma prefixb_refl l b : prefixb l (l ++ b) = true.
Proof.
  induction l as [|a l IH]; [reflexivity|]. simpl.
  rewrite N.eqb_refl. exact IH.
Qed.

Lemma occursb_iff l s : occursb l s = true <-> occurs_in l s.
Proof.
  split.
  - induction s as [|c s IH]; simpl; intros H.
    + rewrite orb_false_r in H. apply prefixb_app in H as [b ->].
      exists [], b. reflexivity.
    + apply orb_true_iff in H as [H|H].
      * apply prefixb_app in H as [b ->]. exists [], b. reflexivity.
      * destruct (IH H) as (a & b & ->). exists (c :: a), b. reflexivity.
  - intros (a & b & ->). induction a as [|c a IH].
    + cbn [app]. pose proof (prefixb_refl l b) as H.
      destruct (l ++ b); simpl; rewrite H; reflexivity.
    + simpl. rewrite IH. apply orb_true_r.
Qed.

Lemma substitute_xml_plain s :
  forallb (fun c => negb (c =? 38) && negb (c =? 60) && negb (c =? 62)) s
  = true ->
  substitute_xml s = s.
Proof.
  induction s as [|c s IH]; [reflexivity|]. simpl. intros H.
  apply andb_true_iff in H as [Hc Hs].
  apply andb_true_iff in Hc as [Hc H3]. apply andb_true_iff in Hc as [H1 H2].
  apply negb_true_iff in H1, H2, H3. rewrite H1, H2, H3, (IH Hs). reflexivity.
Qed.

Lemma substitute_xml_space s :
  forallb is_space s = true -> substitute_xml s = s.
Proof.
  intros H. apply substitute_xml_plain. rewrite forallb_forall in *.
  intros c Hc. apply H in Hc.
  destruct (c =? 38) eqn:E1; [apply N.eqb_eq in E1; subst; discriminate|].
  destruct (c =? 60) eqn:E2; [apply N.eqb_eq in E2; subst; discriminate|].
  destruct (c =? 62) eqn:E3; [apply N.eqb_eq in E3; subst; discriminate|].
  reflexivity.
Qed.

Lemma substitute_xml_app a b :
  substitute_xml (a ++ b) = substitute_xml a ++ substitute_xml b.
Proof. apply flat_map_app. Qed.

(** After the substitution no opening bracket is left. *)
Lemma substitute_xml_not_lt s : forallb not_lt (substitute_xml s) = true.
Proof.
  induction s as [|c s IH]; [reflexivity|].
  unfold substitute_xml in *. cbn [flat_map]. rewrite forallb_app, IH.
  rewrite andb_true_r.
  destruct (c =? 38); [reflexivity|].
  destruct (c =? 60) eqn:E; [reflexivity|].
  destruct (c =? 62); [reflexivity|].
  simpl. unfold not_lt. rewrite E. reflexivity.
Qed.

Lemma substitute_xml_nil s : substitute_xml s = [] -> s = [].
Proof.
  destruct s as [|c s]; [reflexivity|]. unfold substitute_xml. simpl.
  destruct (c =? 38); [discriminate|].
  destruct (c =? 60); [discriminate|].
  destruct (c =? 62); discriminate.
Qed.

Lemma decode_strong x :
  decode (Tag (py "strong") [] [Text x])
  = py "<strong>" ++ substitute_xml x ++ py "</strong>".
Proof.
  unfold decode. cbn [decode_in is_empty_element flat_map app].
  rewrite app_nil_r. reflexivity.
Qed.

(** The markup of a tag that is neither [script] nor [style] is the markup
    of its contents, one after the other. *)
Lemma decode_contents_plain n :
  cdata_containing (name_of n) = false ->
  decode_contents n = flat_map decode (contents_of n).
Proof. intros E. unfold decode_contents. rewrite E. reflexivity. Qed.

(** What is written for a tag, a comment or a string between marks starts
    with an opening bracket. *)
Lemma decode_markup n : is_markup n = true -> exists t, decode n = 60 :: t.
Proof.
  unfold decode.
  destruct n as [s|s|k s|name attrs cs]; [discriminate| | |]; intros H.
  - eexists. reflexivity.
  - destruct k; try discriminate; eexists; reflexivity.
  - cbn [decode_in]. destruct (is_empty_element name cs); eexists; reflexivity.
Qed.

Lemma decode_rest_stops rest :
  match rest with n :: _ => is_markup n = true | [] => True end ->
  stops not_lt (flat_map decode rest).
Proof.
  destruct rest as [|n rest]; [exact id|]. intros H.
  destruct (decode_markup n H) as [t E]. cbn [flat_map]. rewrite E.
  reflexivity.
Qed.

End Markup.

Section LabelledValue.

Variable U : unicode_db.

(** What the loop body reads after a label, from the markup of the detail
    block. *)
Lemma details_label_value label (details_div : node) pre ws1 ws2 t rest :
  contents_of details_div
  = pre ++ Tag (py "strong") [] [Text (ws1 ++ label ++ ws2)] :: Text t :: rest ->
  label = py "Plats:" \/ label = py "Tid:" ->
  forallb is_space ws1 = true -> forallb is_space ws2 = true ->
  t <> [] ->
  match rest with n :: _ => is_markup n = true | [] => True end ->
  occursb label (flat_map decode pre) = false ->
  cdata_containing (name_of details_div) = false ->
  exists a,
    search U (FetchCalendar.label_re label) (decode_contents details_div)
    = Some a
    /\ strip (group 1 a) = strip (substitute_xml t).
Proof.
  intros Hc Hl H1 H2 Ht Hrest Hocc Hname.
  rewrite (decode_contents_plain _ Hname), Hc, flat_map_app. cbn [flat_map].
  rewrite decode_strong, !substitute_xml_app.
  rewrite (substitute_xml_space ws1 H1), (substitute_xml_space ws2 H2).
  assert (El : substitute_xml label = label)
    by (destruct Hl as [-> | ->]; reflexivity).
  rewrite El. change (decode (Text t)) with (substitute_xml t).
  rewrite <- !app_assoc.
  apply search_label.
  - intros H. apply occursb_iff in H. congruence.
  - destruct Hl as [-> | ->]; simpl; intuition discriminate.
  - destruct Hl as [-> | ->]; discriminate.
  - destruct Hl as [-> | ->]; reflexivity.
  - exact H1.
  - exact H2.
  - intros E. apply substitute_xml_nil in E. contradiction.
  - apply substitute_xml_not_lt.
  - now apply decode_rest_stops.
Qed.

End LabelledValue.

Section Trimming.

Lemma lstrip_id s : stops is_space s -> lstrip s = s.
Proof. destruct s as [|c s]; simpl; [reflexivity|]. now intros ->. Qed.

Lemma lstrip_stops s : stops is_space (lstrip s).
Proof.
  induction s as [|c s IH]; simpl; [exact I|].
  destruct (is_space c) eqn:E; [exact IH|]. simpl. exact E.
Qed.

Lemma lstrip_split s : exists w, s = w ++ lstrip s.
Proof.
  induction s as [|c s [w IH]]; [exists []; reflexivity|]. simpl.
  destruct (is_space c).
  - exists (c :: w). simpl. congruence.
  - exists []. reflexivity.
Qed.

Lemma stops_app (f : char -> bool) a b :
  a <> [] -> stops f a -> stops f (a ++ b).
Proof. destruct a; [contradiction|auto]. Qed.

(** What [strip] returns has no white space at either end. *)
Lemma strip_edges s :
  stops is_space (strip s) /\ stops is_space (rev (strip s)).
Proof.
  unfold strip, rstrip. split.
  - destruct (lstrip_split (rev (lstrip s))) as [w E].
    apply (f_equal (@rev _)) in E. rewrite rev_involutive, rev_app_distr in E.
    destruct (rev (lstrip (rev (lstrip s)))) as [|c x]; [exact I|].
    pose proof (lstrip_stops s) as H. rewrite E in H. exact H.
  - rewrite rev_involutive. apply lstrip_stops.
Qed.

Lemma edges_trimmed s :
  stops is_space s -> stops is_space (rev s) -> trimmed s.
Proof.
  intros H1 H2. unfold trimmed, strip, rstrip.
  rewrite (lstrip_id s H1), (lstrip_id (rev s) H2). apply rev_involutive.
Qed.

Lemma strip_trimmed s : trimmed (strip s).
Proof. destruct (strip_edges s). now apply edges_trimmed. Qed.

Lemma edges_sandwich a mid b :
  a <> [] -> b <> [] ->
  stops is_space a -> stops is_space (rev b) ->
  stops is_space (a ++ mid ++ b) /\ stops is_space (rev (a ++ mid ++ b)).
Proof.
  intros Ha Hb Sa Sb. split.
  - now apply stops_app.
  - rewrite !rev_app_distr, <- app_assoc. apply stops_app; [|exact Sb].
    intros E. apply (f_equal (@rev _)) in E. rewrite rev_involutive in E.
    contradiction.
Qed.

Lemma concat_edges (l : list pystr) :
  Forall edges l ->
  stops is_space (concat l) /\ stops is_space (rev (concat l)).
Proof.
  induction 1 as [|p ps (Hn & H1 & H2) _ IH]; simpl; [auto|].
  destruct (concat ps) as [|c x] eqn:E.
  - rewrite app_nil_r. auto.
  - destruct IH as [_ IH2].
    apply (edges_sandwich p [] (c :: x)); auto. discriminate.
Qed.

Lemma join_edges sep (l : list pystr) :
  Forall edges l ->
  stops is_space (join sep l) /\ stops is_space (rev (join sep l)).
Proof.
  induction 1 as [|p ps (Hn & H1 & H2) Hps IH]; [simpl; auto|].
  destruct ps as [|q qs]; [simpl; auto|].
  change (join sep (p :: q :: qs)) with (p ++ sep ++ join sep (q :: qs)).
  destruct IH as [_ IH2]. apply edges_sandwich; auto.
  inversion Hps as [|? ? (Hq & _) _]. now apply join_nonempty.
Qed.

Lemma stripped_strings_edges n : Forall edges (stripped_strings n).
Proof.
  unfold stripped_strings. apply Forall_forall. intros s H.
  apply in_flat_map in H as (d & _ & H).
  destruct (interesting (name_of n) d) as [t|]; [|contradiction].
  simpl in H. destruct (strip t) as [|c u] eqn:E; simpl in H; [contradiction|].
  destruct H as [<-|[]]. rewrite <- E.
  split; [rewrite E; discriminate|apply strip_edges].
Qed.

(** The flattened text of a tag has no white space at either end. *)
Lemma get_text_trimmed n : trimmed (get_text n).
Proof.
  destruct (concat_edges _ (stripped_strings_edges n)).
  now apply edges_trimmed.
Qed.

Lemma get_text_edges n : get_text n <> [] -> edges (get_text n).
Proof.
  intros H. split; [exact H|].
  apply (concat_edges _ (stripped_strings_edges n)).
Qed.

Lemma lstrip_incl c s : In c (lstrip s) -> In c s.
Proof.
  destruct (lstrip_split s) as [w E]. intros H. rewrite E.
  apply in_or_app. now right.
Qed.

Lemma strip_incl c s : In c (strip s) -> In c s.
Proof.
  unfold strip, rstrip. intros H.
  apply in_rev, lstrip_incl, in_rev in H. now apply lstrip_incl.
Qed.

End Trimming.

Section Records.

Variable U : unicode_db.

Lemma notes_loop_filter (ps : list node) : forall acc,
  fold_left (fun notes p =>
               let p_text := get_text p in
               if truthy p_text then notes ++ [p_text] else notes)
            ps acc
  = acc ++ filter truthy (map get_text ps).
Proof.
  induction ps as [|p ps IH]; intros acc; simpl.
  - now rewrite app_nil_r.
  - rewrite IH. destruct (truthy (get_text p)); [|reflexivity].
    rewrite <- app_assoc. reflexivity.
Qed.

(** The date and the weekday of a record are the two groups of the match
    on the meta text. *)
Lemma scan_item_date item r :
  FetchCalendar.scan_item U item = Some r ->
  exists meta date_match,
    find (py "div") (Some (py "meta")) item = Some meta
    /\ search U FetchCalendar.date_re (get_text meta) = Some date_match
    /\ FetchCalendar.date r = group 1 date_match
    /\ FetchCalendar.day_of_week r = group 2 date_match.
Proof.
  unfold FetchCalendar.scan_item. intros H.
  destruct (find (py "div") (Some (py "meta")) item) as [meta|]; [|discriminate].
  destruct (search U FetchCalendar.date_re (get_text meta)) as [m|] eqn:S;
    [|discriminate].
  destruct (find (py "div") (Some (py "calendar-item-content")) item);
    [|discriminate].
  injection H as <-. exists meta, m. auto.
Qed.

Lemma glang_date_re m gs :
  glang U FetchCalendar.date_re m gs ->
  exists d ws1 ws2 w,
    m = d ++ ws1 ++ py "|" ++ ws2 ++ w /\ gs = [d; w]
    /\ iso_date U d
    /\ forallb is_space ws1 = true /\ forallb is_space ws2 = true
    /\ w <> [] /\ forallb (is_word U) w = true.
Proof.
  unfold FetchCalendar.date_re. cbn [rseq fold_right glang].
  intros (d & r1 & gd & g1 & -> & -> &
          (gd' & (y & q1 & gy & h1 & -> & -> & Hy &
                  (s1 & q2 & gs1 & h2 & -> & -> & Hs1 &
                  (mo & q3 & gmo & h3 & -> & -> & Hmo &
                  (s2 & q4 & gs2 & h4 & -> & -> & Hs2 &
                  (dd & q5 & gdd & h5 & -> & -> & Hdd & (-> & ->)))))) & ->) &
          (ws1 & r2 & gw1 & g2 & -> & -> & (Hws1 & ->) &
          (bar & r3 & gb & g3 & -> & -> & Hbar &
          (ws2 & r4 & gw2 & g4 & -> & -> & (Hws2 & ->) &
          (w & r5 & gw & g5 & -> & -> & (gw' & Hw & ->) & (-> & ->)))))).
  apply glang_rrep in Hy as (Ly & Fy & ->).
  apply glang_rrep in Hmo as (Lmo & Fmo & ->).
  apply glang_rrep in Hdd as (Ldd & Fdd & ->).
  apply glang_rlit in Hs1 as [-> ->]. apply glang_rlit in Hs2 as [-> ->].
  apply glang_rlit in Hbar as [-> ->].
  apply glang_rplus in Hw as (Nw & Fw & ->).
  exists (y ++ py "-" ++ mo ++ py "-" ++ dd), ws1, ws2, w.
  rewrite !app_nil_r. simpl. repeat split; try assumption.
  exists y, mo, dd. repeat split; assumption.
Qed.

Lemma glang_label_re label m gs :
  glang U (FetchCalendar.label_re label) m gs ->
  exists g, gs = [g] /\ g <> [] /\ forallb not_lt g = true.
Proof.
  rewrite label_re_unfold. unfold value_re. cbn [glang].
  intros (m1 & r1 & g1 & h1 & -> & -> & H1 &
          (m2 & r2 & g2 & h2 & -> & -> & (_ & ->) &
          (m3 & r3 & g3 & h3 & -> & -> & H3 &
          (m4 & r4 & g4 & h4 & -> & -> & (_ & ->) &
          (m5 & r5 & g5 & h5 & -> & -> & H5 &
          (m6 & r6 & g6 & h6 & -> & -> & (_ & ->) &
          (g & r7 & gg & h7 & -> & -> & (gg' & Hg & ->) & (-> & ->)))))))).
  apply glang_rlit in H1 as [_ ->]. apply glang_rlit in H3 as [_ ->].
  apply glang_rlit in H5 as [_ ->].
  apply glang_rplus in Hg as (Ng & Fg & ->).
  exists g. simpl. auto.
Qed.

Lemma hd_error_In {A} (l : list A) a : hd_error l = Some a -> In a l.
Proof. destruct l; [discriminate|]. intros [= ->]. now left. Qed.

Lemma hd_seq_remainder r1 r2 s a :
  hd_error (attempts U (RSeq r1 r2) s) = Some a ->
  exists a1 a2,
    In a1 (attempts U r1 s)
    /\ hd_error (attempts U r2 (remainder a1)) = Some a2
    /\ remainder a = remainder a2.
Proof.
  intros H. apply hd_seq in H as (a1 & a2 & H1 & H2 & ->). eauto.
Qed.

Lemma hd_seq_eps r s a :
  hd_error (attempts U (RSeq r REps) s) = Some a ->
  exists a1, hd_error (attempts U r s) = Some a1
             /\ remainder a = remainder a1.
Proof.
  rewrite attempts_seq. destruct (attempts U r s) as [|a1 l]; [discriminate|].
  simpl. intros [= <-]. exists a1. auto.
Qed.

Lemma attempts_group r s :
  attempts U (RGroup r) s = map capture (attempts U r s).
Proof. reflexivity. Qed.

(** A greedy [k+] at the end of a pattern leaves nothing of the class
    behind it. *)
Lemma hd_group_plus_stops k s a :
  hd_error (attempts U (RSeq (RGroup (rplus k)) REps) s) = Some a ->
  stops (cls_matches U k) (remainder a).
Proof.
  intros H. apply hd_seq_eps in H as (a1 & H & ->).
  rewrite attempts_group, hd_error_map in H.
  destruct (hd_error (attempts U (rplus k) s)) as [a0|] eqn:E; [|discriminate].
  injection H as <-. cbn [capture remainder].
  unfold rplus in E. apply hd_seq_remainder in E as (b1 & b2 & _ & E & ->).
  exact (star_attempts_hd_stops U k _ _ E).
Qed.

Lemma date_re_greedy s a :
  hd_error (attempts U FetchCalendar.date_re s) = Some a ->
  stops (is_word U) (remainder a).
Proof.
  unfold FetchCalendar.date_re. cbn [rseq fold_right]. intros H.
  apply hd_seq_remainder in H as (a1 & b1 & _ & H & ->).
  apply hd_seq_remainder in H as (a2 & b2 & _ & H & ->).
  apply hd_seq_remainder in H as (a3 & b3 & _ & H & ->).
  apply hd_seq_remainder in H as (a4 & b4 & _ & H & ->).
  exact (hd_group_plus_stops CWord _ _ H).
Qed.

End Records.

Section ExtraFields.

(** X1. When the detail block holds a strong element with the label
    "Plats:" (white space around the label allowed), directly followed by a
    non-empty text, which is followed by a tag, a comment or nothing, and
    the label does not occur in the markup before that element, then the
    location of the record is that text with its ampersands and angle
    brackets written as entities, stripped.  The same holds for "Tid:" and
    the time. *)
Theorem labelled_value (U : unicode_db) (item : node)
        (r : FetchCalendar.ChurchService) (content details_div : node)
        (pre : list node) (ws1 label ws2 t : pystr) (rest : list node) :
  FetchCalendar.scan_item U item = Some r ->
  find (py "div") (Some (py "calendar-item-content")) item = Some content ->
  find (py "div") None content = Some details_div ->
  contents_of details_div
  = pre ++ Tag (py "strong") [] [Text (ws1 ++ label ++ ws2)] :: Text t :: rest ->
  forallb is_space ws1 = true -> forallb is_space ws2 = true ->
  t <> [] ->
  match rest with n :: _ => is_markup n = true | [] => True end ->
  occursb label (flat_map decode pre) = false ->
  (label = py "Plats:" ->
   FetchCalendar.location r = Some (strip (substitute_xml t)))
  /\ (label = py "Tid:" ->
      FetchCalendar.time r = Some (strip (substitute_xml t))).
Proof.
  intros H Hc Hd Hk H1 H2 Ht Hrest Hocc.
  apply scan_item_fields in H as (content' & Hc' & _ & Hf).
  rewrite Hc in Hc'. injection Hc' as <-. rewrite Hd in Hf.
  destruct Hf as (Hloc & Htime & _ & _).
  assert (Hname : cdata_containing (name_of details_div) = false)
    by (rewrite (find_name _ _ _ _ Hd); reflexivity).
  split; intros Hl.
  - destruct (details_label_value U label details_div pre ws1 ws2 t rest
                Hk (or_introl Hl) H1 H2 Ht Hrest Hocc Hname) as (a & Ha & Sa).
    rewrite Hloc. unfold FetchCalendar.scan_details.
    cbn [FetchCalendar.d_location]. unfold FetchCalendar.loc_re.
    rewrite <- Hl, Ha, Sa. reflexivity.
  - destruct (details_label_value U label details_div pre ws1 ws2 t rest
                Hk (or_intror Hl) H1 H2 Ht Hrest Hocc Hname) as (a & Ha & Sa).
    rewrite Htime. unfold FetchCalendar.scan_details.
    cbn [FetchCalendar.d_time]. unfold FetchCalendar.time_re.
    rewrite <- Hl, Ha, Sa. reflexivity.
Qed.

Lemma labelled_value_witness :
  map FetchCalendar.location
      (match FetchCalendar.scan_item latin1_db MoreExamples.sermon_item with
       | Some r => [r]
       | None => []
       end) = [Some (py "Kyrkan &amp; salen")]
  /\ map FetchCalendar.time
      (match FetchCalendar.scan_item latin1_db MoreExamples.sermon_item with
       | Some r => [r]
       | None => []
       end) = [Some (py "10:00")].
Proof.
  destruct (FetchCalendar.scan_item latin1_db MoreExamples.sermon_item)
    as [r|] eqn:E; [|vm_compute in E; discriminate].
  split; simpl; f_equal.
  - apply (labelled_value latin1_db MoreExamples.sermon_item r
             MoreExamples.sermon_content MoreExamples.sermon_div
             [Examples.tag "strong" [Text (py "Inbjuden predikant")];
              Examples.tag "br" []]
             [] (py "Plats:") [] (py " Kyrkan & salen ")
             [Examples.tag "br" [];
              Examples.tag "strong" [Text (py " Tid: ")];
              Text (py " 10:00");
              Examples.tag "p" [Text (py " Kaffe efteråt. ")];
              Examples.tag "p" [Text (py "  ")]]);
      try reflexivity; try exact E. discriminate.
  - apply (labelled_value latin1_db MoreExamples.sermon_item r
             MoreExamples.sermon_content MoreExamples.sermon_div
             [Examples.tag "strong" [Text (py "Inbjuden predikant")];
              Examples.tag "br" [];
              Examples.tag "strong" [Text (py "Plats:")];
              Text (py " Kyrkan & salen ");
              Examples.tag "br" []]
             (py " ") (py "Tid:") (py " ") (py " 10:00")
             [Examples.tag "p" [Text (py " Kaffe efteråt. ")];
              Examples.tag "p" [Text (py "  ")]]);
      try reflexivity; try exact E. discriminate.
Defined.

End ExtraFields.

Section ExtraFields2.

Variable U : unicode_db.

Lemma not_lt_neq c : not_lt c = true <-> c <> 60%N.
Proof.
  unfold not_lt. rewrite negb_true_iff. apply N.eqb_neq.
Qed.

Lemma is_space_not_lt c : is_space c = true -> not_lt c = true.
Proof.
  intros H. destruct (not_lt c) eqn:E; [reflexivity|].
  apply not_lt_not_space in E. congruence.
Qed.

(** The texts in which a label pattern matches somewhere. *)
Lemma lang_label_followed label text :
  (exists pre m post,
      text = pre ++ m ++ post /\ lang U (FetchCalendar.label_re label) m)
  <-> label_followed label text.
Proof.
  split.
  - intros (pre & m & post & -> & L).
    rewrite label_re_unfold in L. unfold value_re in L. cbn [lang] in L.
    destruct L as (m1 & r1 & -> & H1 & ws1 & r2 & -> & Hw1 & l & r3 & -> & Hl
                   & ws2 & r4 & -> & Hw2 & m5 & r5 & -> & H5
                   & ws3 & r6 & -> & Hw3 & v & r7 & -> & Hv & ->).
    apply lang_rlit in H1, Hl, H5. subst m1 l m5.
    apply lang_rplus in Hv as [Nv Fv].
    destruct v as [|c v]; [contradiction|].
    simpl in Fv. apply andb_true_iff in Fv as [Fc Fv].
    destruct ws3 as [|d ws3].
    + exists pre, ws1, ws2, c, (v ++ post). rewrite !app_nil_r.
      split; [|split; [exact Hw1|split; [exact Hw2|now apply not_lt_neq]]].
      cbn [app]. rewrite <- !app_assoc. reflexivity.
    + simpl in Hw3. apply andb_true_iff in Hw3 as [Hd _].
      exists pre, ws1, ws2, d, (ws3 ++ (c :: v) ++ post). rewrite !app_nil_r.
      split; [|split; [exact Hw1|split; [exact Hw2|]]].
      * cbn [app]. rewrite <- !app_assoc. cbn [app].
        rewrite <- !app_assoc. reflexivity.
      * apply not_lt_neq. now apply is_space_not_lt.
  - intros (pre & ws1 & ws2 & c & post & -> & Hw1 & Hw2 & Hc).
    exists pre,
      (py "<strong>" ++ ws1 ++ label ++ ws2 ++ py "</strong>" ++ [c]), post.
    split; [rewrite <- !app_assoc; reflexivity|].
    rewrite label_re_unfold. unfold value_re. cbn [lang].
    exists (py "<strong>"), (ws1 ++ label ++ ws2 ++ py "</strong>" ++ [c]).
    split; [reflexivity|]. split; [now apply lang_rlit|].
    exists ws1, (label ++ ws2 ++ py "</strong>" ++ [c]).
    split; [reflexivity|]. split; [exact Hw1|].
    exists label, (ws2 ++ py "</strong>" ++ [c]).
    split; [reflexivity|]. split; [now apply lang_rlit|].
    exists ws2, (py "</strong>" ++ [c]).
    split; [reflexivity|]. split; [exact Hw2|].
    exists (py "</strong>"), [c].
    split; [reflexivity|]. split; [now apply lang_rlit|].
    exists [], [c]. split; [reflexivity|]. split; [reflexivity|].
    exists [c], []. split; [reflexivity|]. split; [|reflexivity].
    apply lang_rplus. split; [discriminate|]. simpl.
    apply not_lt_neq in Hc. unfold not_lt in Hc. rewrite Hc. reflexivity.
Qed.

Lemma search_label_None label text :
  search U (FetchCalendar.label_re label) text = None
  <-> ~ label_followed label text.
Proof.
  rewrite search_None_iff. split.
  - intros H L. apply lang_label_followed in L as (pre & m & post & E & L).
    exact (H pre m post E L).
  - intros H pre m post E L. apply H. apply lang_label_followed. eauto.
Qed.

End ExtraFields2.

(** X2. The location of a record is unset exactly when the markup of the
    detail block has no strong element holding "Plats:" (white space around
    the label allowed) that is directly followed by a character other than
    the opening bracket of a tag; likewise the time and "Tid:".  A label
    that is directly followed by a tag therefore yields no value. *)
Theorem unset_without_label (U : unicode_db) (item : node)
        (r : FetchCalendar.ChurchService) (content details_div : node) :
  FetchCalendar.scan_item U item = Some r ->
  find (py "div") (Some (py "calendar-item-content")) item = Some content ->
  find (py "div") None content = Some details_div ->
  (FetchCalendar.location r = None
   <-> ~ label_followed (py "Plats:") (decode_contents details_div))
  /\ (FetchCalendar.time r = None
      <-> ~ label_followed (py "Tid:") (decode_contents details_div)).
Proof.
  intros H Hc Hd.
  apply scan_item_fields in H as (content' & Hc' & _ & Hf).
  rewrite Hc in Hc'. injection Hc' as <-. rewrite Hd in Hf.
  destruct Hf as (-> & -> & _ & _).
  unfold FetchCalendar.scan_details.
  cbn [FetchCalendar.d_location FetchCalendar.d_time].
  unfold FetchCalendar.loc_re, FetchCalendar.time_re.
  split; rewrite <- (search_label_None U).
  - destruct (search U (FetchCalendar.label_re (py "Plats:"))
                (decode_contents details_div)); split; intros; congruence.
  - destruct (search U (FetchCalendar.label_re (py "Tid:"))
                (decode_contents details_div)); split; intros; congruence.
Qed.

Lemma unset_without_label_witness :
  ~ label_followed (py "Plats:")
      (decode_contents MoreExamples.tagged_place_div).
Proof.
  destruct (FetchCalendar.scan_item latin1_db MoreExamples.tagged_place_item)
    as [r|] eqn:E; [|vm_compute in E; discriminate].
  destruct (unset_without_label latin1_db MoreExamples.tagged_place_item r
              MoreExamples.tagged_place_content MoreExamples.tagged_place_div
              E eq_refl eq_refl) as [[H _] _].
  apply H. vm_compute in E. injection E as <-. reflexivity.
Defined.

Section ExtraFields3.

Variable U : unicode_db.

Lemma search_label_group label text a :
  search U (FetchCalendar.label_re label) text = Some a ->
  forallb not_lt (group 1 a) = true.
Proof.
  intros H. apply search_some in H as (pre & _ & Hin).
  apply attempts_sound_groups in Hin as [_ G].
  apply glang_label_re in G as (g & Eg & _ & Fg).
  unfold group. rewrite Eg. exact Fg.
Qed.

Lemma label_value_clean label text v :
  match search U (FetchCalendar.label_re label) text with
  | Some m => Some (strip (group 1 m))
  | None => None
  end = Some v ->
  trimmed v /\ ~ In 60%N v.
Proof.
  destruct (search U (FetchCalendar.label_re label) text) as [a|] eqn:E;
    [|discriminate].
  intros [= <-]. split; [apply strip_trimmed|].
  intros Hin. apply strip_incl in Hin.
  pose proof (search_label_group label text a E) as F.
  rewrite forallb_forall in F. apply F in Hin. discriminate.
Qed.

Lemma details_notes details_div :
  FetchCalendar.d_notes (FetchCalendar.scan_details U details_div)
  = filter truthy (map get_text (find_all (py "p") None details_div)).
Proof.
  unfold FetchCalendar.scan_details. cbn [FetchCalendar.d_notes].
  apply (notes_loop_filter (find_all (py "p") None details_div) []).
Qed.

Lemma truthy_nonempty s : truthy s = true <-> s <> [].
Proof. destruct s; simpl; split; congruence. Qed.

Lemma notes_edges details_div :
  Forall edges
    (FetchCalendar.d_notes (FetchCalendar.scan_details U details_div)).
Proof.
  rewrite details_notes. apply Forall_forall. intros s H.
  apply filter_In in H as [H T]. apply in_map_iff in H as (p & <- & _).
  apply get_text_edges. now apply truthy_nonempty.
Qed.

End ExtraFields3.

(** X3. In every record of the result, the service name and every
    optional field that is set are free of white space at both ends
    ([s.strip() == s]), and a location or time that is set contains no
    opening angle bracket. *)
Theorem fields_trimmed (U : unicode_db) (soup : node)
        (r : FetchCalendar.ChurchService) :
  In r (FetchCalendar.fetch_calendar U soup) ->
  trimmed (FetchCalendar.service_name r)
  /\ (forall v, FetchCalendar.location r = Some v ->
                trimmed v /\ ~ In 60%N v)
  /\ (forall v, FetchCalendar.time r = Some v -> trimmed v /\ ~ In 60%N v)
  /\ (forall v, FetchCalendar.occasion r = Some v -> trimmed v)
  /\ (forall v, FetchCalendar.notes r = Some v -> trimmed v).
Proof.
  intros H. apply fetch_calendar_In in H as [item H].
  apply scan_item_fields in H as (content & _ & Hn & Hd). split.
  - rewrite Hn. destruct (find (py "h3") None content);
      [apply get_text_trimmed|reflexivity].
  - destruct (find (py "div") None content) as [details_div|].
    + destruct Hd as (Hl & Ht & Ho & Hnotes).
      split; [|split; [|split]].
      * intros v Hv. rewrite Hl in Hv.
        exact (label_value_clean U _ _ v Hv).
      * intros v Hv. rewrite Ht in Hv.
        exact (label_value_clean U _ _ v Hv).
      * intros v Hv. rewrite Ho in Hv.
        unfold FetchCalendar.scan_details in Hv.
        cbn [FetchCalendar.d_occasion] in Hv.
        destruct (find (py "strong") None details_div) as [s|]; [|discriminate].
        match type of Hv with
        | (if ?b then _ else _) = _ => destruct b
        end; [|discriminate].
        injection Hv as <-. apply get_text_trimmed.
      * intros v Hv. rewrite Hnotes in Hv.
        pose proof (notes_edges U details_div) as F.
        destruct (FetchCalendar.d_notes
                    (FetchCalendar.scan_details U details_div)) as [|p ns];
          [discriminate|].
        injection Hv as <-.
        destruct (join_edges (py (String "010" "")) (p :: ns) F).
        now apply edges_trimmed.
    + destruct Hd as (-> & -> & -> & ->).
      repeat split; intros; discriminate.
Qed.

Lemma fields_trimmed_witness :
  Forall (fun r => trimmed (FetchCalendar.service_name r)
                   /\ forall v, FetchCalendar.location r = Some v ->
                                trimmed v /\ ~ In 60%N v)
         (FetchCalendar.fetch_calendar latin1_db MoreExamples.sermon_page)
  /\ map FetchCalendar.service_name
         (FetchCalendar.fetch_calendar latin1_db MoreExamples.sermon_page)
     = [py "Helig liturgi"].
Proof.
  split; [|reflexivity].
  apply Forall_forall. intros r H.
  destruct (fields_trimmed latin1_db MoreExamples.sermon_page r H)
    as (Hs & Hl & _).
  split; assumption.
Defined.

(** X4. The date and the weekday of a record are read off the text of the
    entry's meta block: that text is some prefix, the date, optional white
    space, a bar, optional white space, the weekday, and a rest.  The date
    is four, two and two digits joined by dashes; the weekday is a non-empty
    run of word characters that the rest does not continue (the whole word
    is taken); and no date line starts earlier in the text (the first one
    is taken). *)
Theorem date_and_weekday (U : unicode_db) (item : node)
        (r : FetchCalendar.ChurchService) :
  FetchCalendar.scan_item U item = Some r ->
  exists meta pre ws1 ws2 post,
    find (py "div") (Some (py "meta")) item = Some meta
    /\ get_text meta
       = pre ++ FetchCalendar.date r ++ ws1 ++ py "|" ++ ws2
             ++ FetchCalendar.day_of_week r ++ post
    /\ iso_date U (FetchCalendar.date r)
    /\ forallb is_space ws1 = true /\ forallb is_space ws2 = true
    /\ FetchCalendar.day_of_week r <> []
    /\ forallb (is_word U) (FetchCalendar.day_of_week r) = true
    /\ stops (is_word U) post
    /\ (forall P1 P2 m post',
          pre = P1 ++ P2 -> P2 <> [] ->
          P2 ++ FetchCalendar.date r ++ ws1 ++ py "|" ++ ws2
             ++ FetchCalendar.day_of_week r ++ post = m ++ post' ->
          ~ date_line U m).
Proof.
  intros H. apply scan_item_date in H as (meta & a & Hm & Hs & Hd & Hw).
  apply search_first in Hs as (pre & Es & Hhd & Hno).
  pose proof (hd_error_In _ _ Hhd) as Hin.
  apply attempts_sound_groups in Hin as [_ G].
  apply glang_date_re in G as (d & ws1 & ws2 & w & Ec & Eg & Hiso & H1 & H2
                               & Nw & Fw).
  unfold group in Hd, Hw. rewrite Eg in Hd, Hw. simpl in Hd, Hw.
  subst d w. exists meta, pre, ws1, ws2, (remainder a).
  split; [exact Hm|]. split.
  { rewrite Es, Ec, <- !app_assoc. reflexivity. }
  repeat (split; [assumption|]). split.
  { exact (date_re_greedy U _ _ Hhd). }
  intros P1 P2 m post' EP NP Em D.
  apply lang_date_re in D.
  destruct (attempts_complete U FetchCalendar.date_re m post' D) as [g Hg].
  rewrite <- Em in Hg.
  specialize (Hno P1 P2 EP NP). rewrite Ec, <- !app_assoc in Hno.
  rewrite Hno in Hg. contradiction.
Qed.

Lemma date_and_weekday_witness :
  map (fun r => (FetchCalendar.date r, FetchCalendar.day_of_week r))
      (match FetchCalendar.scan_item latin1_db MoreExamples.sermon_item with
       | Some r => [r]
       | None => []
       end) = [(py "2026-03-01", py "Söndag")]
  /\ Forall (fun r => iso_date latin1_db (FetchCalendar.date r))
            (match FetchCalendar.scan_item latin1_db MoreExamples.sermon_item with
             | Some r => [r]
             | None => []
             end).
Proof.
  split; [reflexivity|].
  destruct (FetchCalendar.scan_item latin1_db MoreExamples.sermon_item)
    as [r|] eqn:E; [|constructor].
  destruct (date_and_weekday latin1_db MoreExamples.sermon_item r E)
    as (meta & pre & ws1 & ws2 & post & _ & _ & Hiso & _).
  constructor; [exact Hiso|constructor].
Defined.

(** X5. The notes of a record are the stripped texts of the p elements
    below the detail block, in document order, the empty ones left out,
    joined by a line break; and the notes are unset exactly when every plain
    text and every CDATA section inside every such p element is white space
    only.  Comments, declarations and the text the parser stores below
    script, style, template, rt and rp tags do not count: the stripped text
    of a p element leaves them out. *)
Theorem notes_of_paragraphs (U : unicode_db) (item : node)
        (r : FetchCalendar.ChurchService) (content details_div : node) :
  FetchCalendar.scan_item U item = Some r ->
  find (py "div") (Some (py "calendar-item-content")) item = Some content ->
  find (py "div") None content = Some details_div ->
  FetchCalendar.notes r
  = match filter truthy (map get_text (find_all (py "p") None details_div)) with
    | [] => None
    | ns => Some (join (py (String "010" "")) ns)
    end
  /\ (FetchCalendar.notes r = None <->
      forall p s,
        In p (find_all (py "p") None details_div) ->
        In (Text s) (descendants p) \/ In (Special CData s) (descendants p) ->
        forallb is_space s = true).
Proof.
  intros H Hc Hd.
  apply scan_item_fields in H as (content' & Hc' & _ & Hf).
  rewrite Hc in Hc'. injection Hc' as <-. rewrite Hd in Hf.
  destruct Hf as (_ & _ & _ & ->). rewrite details_notes.
  split; [reflexivity|].
  assert (Hplain : forall p, In p (find_all (py "p") None details_div) ->
                             string_containers (name_of p) = None).
  { intros p Hp. apply filter_In in Hp as [_ Hp].
    rewrite (matches_name _ _ _ Hp). reflexivity. }
  destruct (filter truthy (map get_text (find_all (py "p") None details_div)))
    as [|n ns] eqn:E.
  - split; [|reflexivity]. intros _ p s Hp Hs.
    apply (proj1 (get_text_nil_plain p (Hplain p Hp))); [|exact Hs].
    destruct (get_text p) as [|c t] eqn:Et; [reflexivity|].
    assert (Hin : In (c :: t)
                     (filter truthy
                        (map get_text (find_all (py "p") None details_div)))).
    { apply filter_In. split; [|reflexivity].
      apply in_map_iff. exists p. auto. }
    rewrite E in Hin. contradiction.
  - split; [discriminate|]. intros Hall. exfalso.
    assert (Hin : In n (n :: ns)) by (left; reflexivity).
    rewrite <- E in Hin. apply filter_In in Hin as [Hin T].
    apply in_map_iff in Hin as (p & <- & Hp).
    assert (Z : get_text p = []).
    { apply (get_text_nil_plain p (Hplain p Hp)). intros s. now apply Hall. }
    rewrite Z in T. discriminate.
Qed.

Lemma notes_of_paragraphs_witness :
  map FetchCalendar.notes
      (match FetchCalendar.scan_item latin1_db MoreExamples.sermon_item with
       | Some r => [r]
       | None => []
       end) = [Some (py "Kaffe efteråt.")]
  /\ map FetchCalendar.notes
         (match FetchCalendar.scan_item latin1_db
                  MoreExamples.script_note_item with
          | Some r => [r]
          | None => []
          end) = [None].
Proof.
  split.
  - destruct (FetchCalendar.scan_item latin1_db MoreExamples.sermon_item)
      as [r|] eqn:E; [|vm_compute in E; discriminate].
    destruct (notes_of_paragraphs latin1_db MoreExamples.sermon_item r
                MoreExamples.sermon_content MoreExamples.sermon_div
                E eq_refl eq_refl) as [H _].
    simpl. rewrite H. reflexivity.
  - destruct (FetchCalendar.scan_item latin1_db MoreExamples.script_note_item)
      as [r|] eqn:E; [|vm_compute in E; discriminate].
    destruct (notes_of_paragraphs latin1_db MoreExamples.script_note_item r
                MoreExamples.script_note_content MoreExamples.script_note_div
                E eq_refl eq_refl) as [_ [_ H]].
    simpl. f_equal. apply H. intros p s Hp Hs.
    destruct Hp as [<-|[]].
    destruct Hs as [Hs|Hs]; simpl in Hs.
    + destruct Hs as [Hs|[Hs|[Hs|[Hs|[]]]]]; try discriminate.
      injection Hs as <-. reflexivity.
    + destruct Hs as [Hs|[Hs|[Hs|[Hs|[]]]]]; discriminate.
Defined.

(* ===================================================================== *)
(** * Further properties of the report loops                              *)
(* ===================================================================== *)

Section Reports.

Variable str_of_container : value -> pystr.

Lemma print_if_get_field label key o d next :
  PrintMain.lookup key d = Some (FetchCalendar.optional o) ->
  PrintMain.print_if_get str_of_container label key d next
  = print_if label o next.
Proof.
  intros H. unfold PrintMain.print_if_get. rewrite H.
  destruct o as [[|c t]|]; reflexivity.
Qed.

(** A turn of the loop of print_calendar.py on the dict made from a record
    is the turn of the loop of scrape_calendar.py on a record with the same
    fields. *)
Lemma report_service_asdict r r' next :
  fetch_fields r = scrape_fields r' ->
  PrintMain.report_service str_of_container (FetchCalendar.asdict r) next
  = ScrapeMain.report_service r' next.
Proof.
  destruct r as [d w n lo ti oc no], r' as [d' w' n' lo' ti' oc' no'].
  unfold fetch_fields, scrape_fields. simpl. intros [= <- <- <- <- <- <- <-].
  unfold PrintMain.report_service, FetchCalendar.asdict,
    ScrapeMain.report_service.
  cbn [FetchCalendar.date FetchCalendar.day_of_week FetchCalendar.service_name
       FetchCalendar.location FetchCalendar.time FetchCalendar.occasion
       FetchCalendar.notes ScrapeCalendar.date ScrapeCalendar.day_of_week
       ScrapeCalendar.service_name ScrapeCalendar.location ScrapeCalendar.time
       ScrapeCalendar.occasion ScrapeCalendar.notes].
  change (PrintMain.lookup (py "date") _) with (Some (JStr d)).
  change (PrintMain.lookup (py "day_of_week") _) with (Some (JStr w)).
  change (PrintMain.lookup (py "service_name") _) with (Some (JStr n)).
  cbn iota beta.
  rewrite (print_if_get_field _ (py "occasion") oc) by reflexivity.
  rewrite (print_if_get_field _ (py "time") ti) by reflexivity.
  rewrite (print_if_get_field _ (py "location") lo) by reflexivity.
  rewrite (print_if_get_field _ (py "notes") no) by reflexivity.
  reflexivity.
Qed.

Lemma for_services_asdict rs next : forall rs',
  map fetch_fields rs = map scrape_fields rs' ->
  PrintMain.for_services str_of_container (map FetchCalendar.asdict rs) next
  = ScrapeMain.for_services rs' next.
Proof.
  induction rs as [|r rs IH]; intros [|r' rs'] H; try discriminate;
    [reflexivity|].
  cbn [map] in H.
  pose proof (f_equal (hd (fetch_fields r)) H) as Hr.
  pose proof (f_equal (@tl _) H) as Ht. cbn [hd tl] in Hr, Ht.
  cbn [map PrintMain.for_services ScrapeMain.for_services].
  rewrite (report_service_asdict r r' _ Hr), (IH rs' Ht). reflexivity.
Qed.

End Reports.

(** X6. The report loop of print_calendar.py, run over the dicts that
    fetch_calendar.py makes of its records ([asdict]), and the report loop
    of scrape_calendar.py, run over records with the same fields, call
    [print] with the same strings in the same order, and the loop over the
    dicts raises no [KeyError] and no [TypeError] of its own: the two loops
    are the same script, whatever follows them.  In particular this holds
    for the records the two scripts extract from the same page. *)
Theorem report_loops_agree (str_of_container : value -> pystr) :
  (forall rs rs' next,
      map fetch_fields rs = map scrape_fields rs' ->
      PrintMain.for_services str_of_container
                             (map FetchCalendar.asdict rs) next
      = ScrapeMain.for_services rs' next)
  /\ (forall U soup next,
        PrintMain.for_services str_of_container
          (map FetchCalendar.asdict (FetchCalendar.fetch_calendar U soup)) next
        = ScrapeMain.for_services (ScrapeCalendar.fetch_calendar U soup) next).
Proof.
  split.
  - intros rs rs' next H. now apply for_services_asdict.
  - intros U soup next. apply for_services_asdict.
    unfold FetchCalendar.fetch_calendar, ScrapeCalendar.fetch_calendar.
    destruct (find (py "section") (Some (py "calendar")) soup);
      [|reflexivity].
    now apply scan_items_copies.
Qed.

Lemma report_loops_agree_witness :
  PrintMain.for_services (fun _ => [])
    (map FetchCalendar.asdict
         (FetchCalendar.fetch_calendar latin1_db Examples.aftonsang_page))
    Done
  = Print ([10%N] ++ py "2026-02-20 (Fredag)")
      (Print (py "  Service: Aftonsång")
         (Print (py "  Time: 18:00") Done)).
Proof.
  exact (eq_trans
           (proj2 (report_loops_agree (fun _ => []))
                  latin1_db Examples.aftonsang_page Done)
           eq_refl).
Defined.
